(** * StyleApiClient: a shallow embedding of src/services/StyleApiClient.ts

    The client owns a session (two opaque ids), an iteration counter and a
    mirror of both in the browser's [localStorage]; it talks to a remote
    API through [fetch].  The embedding keeps the three pieces of state the
    source has (the object's fields, the persistent store, the transport)
    and makes them explicit:

    - the object's fields are the record [StyleApiClient];
    - [localStorage] is a finite map from keys to strings;
    - [fetch] is an oracle [Transport] that sees the whole history of
      requests; every request issued is appended to that history, so that
      the number of transport calls can be counted.

    Numbers: the iteration counter is a JavaScript [number].  It is modelled
    as an integer or [NaN] (what [parseInt] gives on text without digits);
    fractions and infinities are outside the model.  Arithmetic and
    printing are exact on every integer here, which is the language's
    behaviour for the integers a [number] holds exactly (below 2^53 in
    absolute value, [safeNumber] below); [parseInt] skips the ASCII white
    space only.  Statements about a printed or parsed value say where they
    rely on this.  Logging
    ([console.log], [console.error]) and the one second delay of
    [getProfile] have no effect on the state and are left out. *)

From Stdlib Require Import ZArith Ascii String List Lia.
From stdpp Require Import base gmap strings pretty.

Local Open Scope string_scope.
Local Open Scope Z_scope.

(** ** JavaScript values *)

Module Js.

(** A [number] restricted to the integers, with [NaN]. *)
Inductive number :=
| NaN
| Int (z : Z).

Definition ge (a b : number) : bool :=
  match a, b with
  | Int x, Int y => y <=? x
  | _, _ => false
  end.

Definition gt (a b : number) : bool :=
  match a, b with
  | Int x, Int y => y <? x
  | _, _ => false
  end.

(** [a === b] on numbers: [NaN] is equal to nothing. *)
Definition strict_eq (a b : number) : bool :=
  match a, b with
  | Int x, Int y => x =? y
  | _, _ => false
  end.

Definition add (a b : number) : number :=
  match a, b with
  | Int x, Int y => Int (x + y)
  | _, _ => NaN
  end.

(** [n.toString()] *)
Definition toString (n : number) : string :=
  match n with
  | NaN => "NaN"
  | Int z => pretty z
  end.

(** Truthiness of a [string | null]: [null] and the empty string are
    falsy, every other string is truthy. *)
Definition truthy (v : option string) : bool :=
  match v with
  | None => false
  | Some EmptyString => false
  | Some (String _ _) => true
  end.

(** [v || d] for a [string | undefined] on the left. *)
Definition or_else (v : option string) (d : string) : string :=
  if truthy v then default d v else d.

(** A [string | null] spliced into a template literal. *)
Definition template (v : option string) : string :=
  match v with
  | Some s => s
  | None => "null"
  end.

(** [s.includes(sub)] *)
Fixpoint includes (s sub : string) : bool :=
  if String.prefix sub s then true
  else match s with
       | EmptyString => false
       | String _ rest => includes rest sub
       end.

(** *** [parseInt(s)] with no radix

    Leading white space is skipped, then an optional sign, then an optional
    [0x]/[0X] prefix that selects radix 16, then the longest run of digits
    of the radix; no digit at all gives [NaN].  White space is the ASCII
    part of the language's white space and line terminators. *)

Definition is_white_space (c : ascii) : bool :=
  match N_of_ascii c with
  | 9%N | 10%N | 11%N | 12%N | 13%N | 32%N => true
  | _ => false
  end.

Fixpoint trim_start (s : string) : string :=
  match s with
  | String c rest => if is_white_space c then trim_start rest else s
  | EmptyString => s
  end.

Definition digit_value (radix : Z) (c : ascii) : option Z :=
  let n := Z.of_N (N_of_ascii c) in
  let v := if (48 <=? n) && (n <=? 57) then Some (n - 48)
           else if (97 <=? n) && (n <=? 122) then Some (n - 87)
           else if (65 <=? n) && (n <=? 90) then Some (n - 55)
           else None in
  match v with
  | Some d => if d <? radix then Some d else None
  | None => None
  end.

(** The longest prefix of digits, folded into its value; [None] when the
    text does not start with a digit. *)
Fixpoint digits (radix : Z) (acc : option Z) (s : string) : option Z :=
  match s with
  | EmptyString => acc
  | String c rest =>
      match digit_value radix c with
      | Some d => digits radix (Some (radix * default 0 acc + d)) rest
      | None => acc
      end
  end.

Definition parseInt (input : string) : number :=
  let s := trim_start input in
  let '(sign, s) :=
    match s with
    | String "-" rest => (-1, rest)
    | String "+" rest => (1, rest)
    | _ => (1, s)
    end in
  let '(radix, s) :=
    match s with
    | String "0" (String "x" rest) => (16, rest)
    | String "0" (String "X" rest) => (16, rest)
    | _ => (10, s)
    end in
  match digits radix None s with
  | Some v => Int (sign * v)
  | None => NaN
  end.

(** What a [throw] carries: an [Error] object with its message, or any
    other value (for which [instanceof Error] is false). *)
Inductive thrown :=
| Error (message : string)
| NotAnError (value : string).

(** How a call ends. *)
Inductive completion (A : Type) :=
| Return (a : A)
| Throw (e : thrown).
Arguments Return {A} a.
Arguments Throw {A} e.

End Js.

(** ** Data model *)

(** The interfaces the source declares for the bodies of the API. *)

Record AuthResponse := {
  preference_id : string;
  ai_id : string
}.

Record IterationResponse := {
  image_url : string;
  iteration : Js.number;
  completed : bool;
  style : option string;
  image_key : option string
}.

Inductive Feedback := like | dislike.

Inductive FeedbackLabel := Like | Dislike.

(** A value of [top_styles]: [number | [string, number] | {[key]: number}]. *)
Inductive TopStyle :=
| Score (n : Js.number)
| Ranked (name : string) (n : Js.number)
| Nested (scores : gmap string Js.number).

Record Selection := {
  image : string;
  selection_style : string;
  selection_feedback : FeedbackLabel;
  score_change : Js.number;
  current_score : Js.number;
  timestamp : Js.number
}.

Record ProfileResponse := {
  top_styles : gmap string TopStyle;
  selection_history : list Selection
}.

Record SaveProfileResponse := {
  message : string
}.

Record HealthResponse := {
  health_status : string
}.

(** The JSON of a failed request; the source only reads its [error]. *)
Record ErrorData := {
  error : option string
}.

(** ** The two collaborators *)

(** What [fetch] is called with.  The body is the object handed to
    [JSON.stringify], field by field. *)
Record Request := {
  url : string;
  method : string;
  headers : list (string * string);
  body : option (list (string * string))
}.

(** What [fetch] resolves to.  [Failure] is a response whose [ok] is false
    (a status outside 200..299), [Success] one whose [ok] is true; the
    source reads the status of a response only to compare it with 400 and
    to print it, so a [Success] carries none.  [json] is the result of
    [response.json()], which may itself throw. *)
Inductive Response (A : Type) :=
| Failure (status : Z) (json : Js.completion ErrorData)
| Success (json : Js.completion A).
Arguments Failure {A} status json.
Arguments Success {A} json.

(** [fetch] as an oracle, one entry per endpoint of the API: the answer
    may depend on the request and on every request made before it. *)
Record Transport := {
  post_preference : list Request -> Request -> Js.completion (Response AuthResponse);
  post_iteration : list Request -> Request -> Js.completion (Response IterationResponse);
  post_profile : list Request -> Request -> Js.completion (Response SaveProfileResponse);
  get_profile : list Request -> Request -> Js.completion (Response ProfileResponse);
  get_root : list Request -> Request -> Js.completion (Response HealthResponse)
}.

(** ** The client *)

Record StyleApiClient := {
  apiBaseUrl : string;
  aiId : option string;
  preferenceId : option string;
  currentIteration : Js.number
}.

(** Everything a call can read or change: the object, the persistent
    store and the requests sent so far (oldest first). *)
Record World := {
  this : StyleApiClient;
  localStorage : gmap string string;
  requests : list Request
}.

Definition defaultBaseUrl : string := "https://haider.techrealm.online/api".

Definition constructor (baseUrl : string) (store : gmap string string) : StyleApiClient :=
  let storedIteration := store !! "style_current_iteration" in
  {| apiBaseUrl := baseUrl;
     aiId := store !! "style_ai_id";
     preferenceId := store !! "style_preference_id";
     currentIteration :=
       if Js.truthy storedIteration
       then Js.parseInt (Js.template storedIteration)
       else Js.Int 0 |}.

(** A page load: a new client over the store as it is, nothing sent yet. *)
Definition load (baseUrl : string) (store : gmap string string) : World :=
  {| this := constructor baseUrl store; localStorage := store; requests := [] |}.

Definition isAuthenticated (c : StyleApiClient) : bool :=
  Js.truthy (aiId c) && Js.truthy (preferenceId c).

Definition setSessionData (a p : string) (w : World) : World :=
  {| this := {| apiBaseUrl := apiBaseUrl (this w);
                aiId := Some a;
                preferenceId := Some p;
                currentIteration := Js.Int 0 |};
     localStorage :=
       <["style_current_iteration" := "0"]>
         (<["style_preference_id" := p]>
            (<["style_ai_id" := a]> (localStorage w)));
     requests := requests w |}.

Definition clearSessionData (w : World) : World :=
  {| this := {| apiBaseUrl := apiBaseUrl (this w);
                aiId := None;
                preferenceId := None;
                currentIteration := Js.Int 0 |};
     localStorage :=
       delete "style_current_iteration"
         (delete "style_preference_id"
            (delete "style_ai_id" (localStorage w)));
     requests := requests w |}.

Definition getAiId (c : StyleApiClient) : option string := aiId c.

Definition getPreferenceId (c : StyleApiClient) : option string := preferenceId c.

Definition getCurrentIteration (c : StyleApiClient) : Js.number := currentIteration c.

Definition setCurrentIteration (n : Js.number) (w : World) : World :=
  {| this := {| apiBaseUrl := apiBaseUrl (this w);
                aiId := aiId (this w);
                preferenceId := preferenceId (this w);
                currentIteration := n |};
     localStorage := <["style_current_iteration" := Js.toString n]> (localStorage w);
     requests := requests w |}.

(** The transport is called: the request joins the history. *)
Definition sent (r : Request) (w : World) : World :=
  {| this := this w; localStorage := localStorage w; requests := requests w ++ [r] |}.

(** ** Calls to the API *)

Definition notAuthenticated : Js.thrown :=
  Js.Error "Not authenticated. Please authenticate first.".

(** The message of the errors the client builds from a failed response:
    [`${what}: ${response.status} - ${errorData.error || 'Unknown error'}`]. *)
Definition failureMessage (what : string) (status : Z) (errorData : ErrorData) : string :=
  what +:+ ": " +:+ pretty status +:+ " - " +:+ Js.or_else (error errorData) "Unknown error".

Definition authenticate (T : Transport) (accessId gender : string) (w : World)
  : Js.completion AuthResponse * World :=
  let request :=
    {| url := apiBaseUrl (this w) +:+ "/preference";
       method := "POST";
       headers := [("Content-Type", "application/json"); ("Accept", "application/json")];
       body := Some [("access_id", accessId); ("gender", gender)] |} in
  let w1 := sent request w in
  match post_preference T (requests w) request with
  | Js.Throw e => (Js.Throw e, w1)
  | Js.Return (Failure status json) =>
      match json with
      | Js.Throw e => (Js.Throw e, w1)
      | Js.Return errorData =>
          (Js.Throw (Js.Error (failureMessage "Authentication failed" status errorData)), w1)
      end
  | Js.Return (Success json) =>
      match json with
      | Js.Throw e => (Js.Throw e, w1)
      | Js.Return data =>
          (Js.Return data, setSessionData (ai_id data) (preference_id data) w1)
      end
  end.

Definition feedbackText (f : Feedback) : string :=
  match f with
  | like => "like"
  | dislike => "dislike"
  end.

(** The result the client makes up when the loop is over. *)
Definition terminal (n : Js.number) : IterationResponse :=
  {| image_url := ""; iteration := n; completed := true;
     style := None; image_key := None |}.

Definition nextIterationOf (current : Js.number) : Js.number :=
  if Js.strict_eq current (Js.Int 0) then Js.Int 1 else Js.add current (Js.Int 1).

Definition iterationRequest (c : StyleApiClient) (nextIteration : Js.number)
    (feedback : option Feedback) (style imageKey : option string) : Request :=
  let feedbackValue := feedbackText (default dislike feedback) in
  {| url := apiBaseUrl c +:+ "/preference/" +:+ Js.template (preferenceId c)
              +:+ "/iteration/" +:+ Js.toString nextIteration;
     method := "POST";
     headers := [("Content-Type", "application/json"); ("AI-ID", Js.template (aiId c))];
     body := Some
       (("feedback", feedbackValue) ::
        (if Js.strict_eq nextIteration (Js.Int 30) && Js.truthy style && Js.truthy imageKey
         then [("style", Js.template style); ("image_key", Js.template imageKey)]
         else [])) |}.

(** [{...data, completed: isCompleted}] *)
Definition withCompleted (data : IterationResponse) (isCompleted : bool) : IterationResponse :=
  {| image_url := image_url data;
     iteration := iteration data;
     completed := isCompleted;
     style := style data;
     image_key := image_key data |}.

(** The [catch] around the request of [submitFeedbackAndGetNextImage]. *)
Definition completedOrRethrow (e : Js.thrown) (w : World)
  : Js.completion IterationResponse * World :=
  match e with
  | Js.Error msg =>
      if Js.includes msg "No more images available"
      then (Js.Return (terminal (Js.Int 30)), setCurrentIteration (Js.Int 30) w)
      else (Js.Throw e, w)
  | Js.NotAnError _ => (Js.Throw e, w)
  end.

(** The source calls itself after an "Invalid iteration ID" and nothing
    bounds that recursion; [fuel] bounds the depth here, and [None] is a
    call that has not returned within it.  The promise of the inner call is
    returned without [await], so what the inner call throws is not seen by
    the [catch] of the outer one: the inner result is the result. *)
Fixpoint submitFeedbackAndGetNextImage (fuel : nat) (T : Transport)
    (feedback : option Feedback) (style imageKey : option string) (w : World)
  : option (Js.completion IterationResponse * World) :=
  match fuel with
  | O => None
  | S fuel' =>
      if negb (Js.truthy (aiId (this w))) || negb (Js.truthy (preferenceId (this w)))
      then Some (Js.Throw notAuthenticated, w)
      else if Js.ge (currentIteration (this w)) (Js.Int 30)
      then Some (Js.Return (terminal (currentIteration (this w))), w)
      else
        let nextIteration := nextIterationOf (currentIteration (this w)) in
        if Js.gt nextIteration (Js.Int 30)
        then Some (Js.Return (terminal (Js.Int 30)), w)
        else
          let request := iterationRequest (this w) nextIteration feedback style imageKey in
          let w1 := sent request w in
          match post_iteration T (requests w) request with
          | Js.Throw e => Some (completedOrRethrow e w1)
          | Js.Return (Failure status json) =>
              if status =? 400
              then
                match json with
                | Js.Throw e => Some (completedOrRethrow e w1)
                | Js.Return errorData =>
                    if decide (error errorData = Some "No more images available")
                    then Some (Js.Return (terminal (Js.Int 30)),
                               setCurrentIteration (Js.Int 30) w1)
                    else if decide (error errorData = Some "Invalid iteration ID")
                    then submitFeedbackAndGetNextImage fuel' T feedback style imageKey
                           (setCurrentIteration (Js.Int 0) w1)
                    else Some (completedOrRethrow
                                 (Js.Error (failureMessage "Failed to submit feedback"
                                              status errorData)) w1)
                end
              else
                match json with
                | Js.Throw e => Some (completedOrRethrow e w1)
                | Js.Return errorResponse =>
                    Some (completedOrRethrow
                            (Js.Error (failureMessage "Failed to submit feedback"
                                         status errorResponse)) w1)
                end
          | Js.Return (Success json) =>
              match json with
              | Js.Throw e => Some (completedOrRethrow e w1)
              | Js.Return data =>
                  let isCompleted := Js.ge (iteration data) (Js.Int 30) in
                  Some (Js.Return (withCompleted data isCompleted),
                        setCurrentIteration (iteration data) w1)
              end
          end
  end.

(** An authenticated client below iteration 30 sends its request; what
    follows depends on the answer.  [request_of w ...] is that request. *)
Definition request_of (w : World) (feedback : option Feedback)
    (style imageKey : option string) : Request :=
  iterationRequest (this w) (nextIterationOf (currentIteration (this w)))
    feedback style imageKey.

Definition profileRequest (c : StyleApiClient) (verb : string)
    (hdrs : list (string * string)) : Request :=
  {| url := apiBaseUrl c +:+ "/preference/" +:+ Js.template (preferenceId c) +:+ "/profile";
     method := verb;
     headers := hdrs ++ [("AI-ID", Js.template (aiId c))];
     body := None |}.

Definition saveProfile (T : Transport) (w : World)
  : Js.completion SaveProfileResponse * World :=
  if negb (Js.truthy (aiId (this w))) || negb (Js.truthy (preferenceId (this w)))
  then (Js.Throw notAuthenticated, w)
  else
    let request := profileRequest (this w) "POST" [("Content-Type", "application/json")] in
    let w1 := sent request w in
    match post_profile T (requests w) request with
    | Js.Throw e => (Js.Throw e, w1)
    | Js.Return (Failure status json) =>
        match json with
        | Js.Throw e => (Js.Throw e, w1)
        | Js.Return errorResponse =>
            (Js.Throw (Js.Error (failureMessage "Failed to save profile" status errorResponse)), w1)
        end
    | Js.Return (Success json) =>
        match json with
        | Js.Throw e => (Js.Throw e, w1)
        | Js.Return data => (Js.Return data, w1)
        end
    end.

Definition emptyProfile : ProfileResponse :=
  {| top_styles := ∅; selection_history := [] |}.

(** The [catch] of [getProfile]: whatever was thrown is dropped. *)
Definition swallow (e : Js.thrown) (w : World) : Js.completion ProfileResponse * World :=
  (Js.Return emptyProfile, w).

Definition getProfile (T : Transport) (w : World)
  : Js.completion ProfileResponse * World :=
  if negb (Js.truthy (aiId (this w))) || negb (Js.truthy (preferenceId (this w)))
  then (Js.Throw notAuthenticated, w)
  else
    let request := profileRequest (this w) "GET" [] in
    let w1 := sent request w in
    match get_profile T (requests w) request with
    | Js.Throw e => swallow e w1
    | Js.Return (Failure status json) =>
        if status =? 400
        then (Js.Return emptyProfile, w1)
        else
          match json with
          | Js.Throw e => swallow e w1
          | Js.Return errorResponse =>
              swallow (Js.Error (failureMessage "Failed to get profile" status errorResponse)) w1
          end
    | Js.Return (Success json) =>
        match json with
        | Js.Throw e => swallow e w1
        | Js.Return data => (Js.Return data, w1)
        end
    end.

Definition checkApiHealth (T : Transport) (w : World)
  : Js.completion HealthResponse * World :=
  let request := {| url := apiBaseUrl (this w); method := "GET"; headers := []; body := None |} in
  let w1 := sent request w in
  match get_root T (requests w) request with
  | Js.Throw e => (Js.Throw e, w1)
  | Js.Return (Failure _ _) => (Js.Throw (Js.Error "API health check failed"), w1)
  | Js.Return (Success json) =>
      match json with
      | Js.Throw e => (Js.Throw e, w1)
      | Js.Return data => (Js.Return data, w1)
      end
  end.

(** ** Histories of calls *)

Inductive Call :=
| call_setSessionData (a p : string)
| call_clearSessionData
| call_setCurrentIteration (n : Js.number)
| call_authenticate (accessId gender : string)
| call_submitFeedbackAndGetNextImage (feedback : option Feedback) (style imageKey : option string)
| call_saveProfile
| call_getProfile
| call_checkApiHealth.

(** One call of a method that has returned or thrown, and the world it
    leaves behind. *)
Inductive step (T : Transport) : World -> Call -> World -> Prop :=
| step_setSessionData a p w :
    step T w (call_setSessionData a p) (setSessionData a p w)
| step_clearSessionData w :
    step T w call_clearSessionData (clearSessionData w)
| step_setCurrentIteration n w :
    step T w (call_setCurrentIteration n) (setCurrentIteration n w)
| step_authenticate accessId gender w :
    step T w (call_authenticate accessId gender) (authenticate T accessId gender w).2
| step_submit fuel feedback style imageKey w r w' :
    submitFeedbackAndGetNextImage fuel T feedback style imageKey w = Some (r, w') ->
    step T w (call_submitFeedbackAndGetNextImage feedback style imageKey) w'
| step_saveProfile w :
    step T w call_saveProfile (saveProfile T w).2
| step_getProfile w :
    step T w call_getProfile (getProfile T w).2
| step_checkApiHealth w :
    step T w call_checkApiHealth (checkApiHealth T w).2.

(** The worlds a page can be in after it loaded the client over [store]. *)
Inductive reachable (T : Transport) (baseUrl : string) (store : gmap string string)
  : World -> Prop :=
| reachable_load : reachable T baseUrl store (load baseUrl store)
| reachable_step w c w' :
    reachable T baseUrl store w -> step T w c w' -> reachable T baseUrl store w'.

(** The counter is an integer between 0 and 30. *)
Definition inRange (n : Js.number) : Prop :=
  match n with
  | Js.Int z => 0 <= z <= 30
  | Js.NaN => False
  end.

(** Every iteration the server sends with a successful answer is between
    0 and 30. *)
Definition servesInRange (T : Transport) : Prop :=
  forall history request data,
    post_iteration T history request = Js.Return (Success (Js.Return data)) ->
    inRange (iteration data).

(** The iteration a caller passes to [setCurrentIteration] is between 0
    and 30. *)
Definition passesInRange (c : Call) : Prop :=
  match c with
  | call_setCurrentIteration n => inRange n
  | _ => True
  end.

(** ** Transports used as examples *)

Definition noAnswer {A} : list Request -> Request -> Js.completion (Response A) :=
  fun _ _ => Js.Throw (Js.Error "Failed to fetch").

(** A transport that is down. *)
Definition offline : Transport :=
  {| post_preference := noAnswer; post_iteration := noAnswer; post_profile := noAnswer;
     get_profile := noAnswer; get_root := noAnswer |}.

Definition withIteration
    (f : list Request -> Request -> Js.completion (Response IterationResponse)) : Transport :=
  {| post_preference := noAnswer; post_iteration := f; post_profile := noAnswer;
     get_profile := noAnswer; get_root := noAnswer |}.

Definition badRequest (text : string) : Js.completion (Response IterationResponse) :=
  Js.Return (Failure 400 (Js.Return {| error := Some text |})).

Definition served (url : string) (n : Z) : Js.completion (Response IterationResponse) :=
  Js.Return (Success (Js.Return {| image_url := url; iteration := Js.Int n; completed := false;
                                   style := None; image_key := None |})).

(** The server rejects every iteration. *)
Definition alwaysInvalid : Transport :=
  withIteration (fun _ _ => badRequest "Invalid iteration ID").

(** The server rejects the first two requests and serves the third. *)
Definition invalidTwice : Transport :=
  withIteration (fun history _ =>
    if (length history <? 2)%nat then badRequest "Invalid iteration ID"
    else served "https://img.example/1.jpg" 1).

(** The server answers with an iteration number beyond the loop. *)
Definition overshooting : Transport :=
  withIteration (fun _ _ => served "https://img.example/31.jpg" 31).

(** A session in the middle of the loop, at iteration [n]. *)
Definition session (n : Js.number) : World :=
  setCurrentIteration n (setSessionData "ai-1" "pref-1" (load defaultBaseUrl ∅)).

(** The world after [invalidTwice] has rejected two requests for an
    iteration and served the third. *)
Definition afterTwoRetries (feedback : option Feedback) (w : World) : World :=
  let w1 := setCurrentIteration (Js.Int 0) (sent (request_of w feedback None None) w) in
  let w2 := setCurrentIteration (Js.Int 0) (sent (request_of w1 feedback None None) w1) in
  setCurrentIteration (Js.Int 1) (sent (request_of w2 feedback None None) w2).

(** ** Reloads, exact numbers and runs of the loop *)

(** The numbers on which the model of [toString] is the language's: [NaN]
    and the integers that a [number] holds exactly and prints in plain
    decimal digits. *)
Definition safeNumber (n : Js.number) : Prop :=
  match n with
  | Js.Int z => - 2 ^ 53 < z < 2 ^ 53
  | Js.NaN => True
  end.

(** The store mirrors the object: a client constructed over the store now
    would be this one. *)
Definition synced (w : World) : Prop :=
  constructor (apiBaseUrl (this w)) (localStorage w) = this w.

Definition servesSafe (T : Transport) : Prop :=
  forall history request data,
    post_iteration T history request = Js.Return (Success (Js.Return data)) ->
    safeNumber (iteration data).

Definition passesSafe (c : Call) : Prop :=
  match c with
  | call_setCurrentIteration n => safeNumber n
  | _ => True
  end.

(** A server that numbers its answers: the k-th request it receives is
    answered with iteration k. *)
Definition answersInOrder (T : Transport) : Prop :=
  forall history request,
    exists data,
      post_iteration T history request = Js.Return (Success (Js.Return data)) /\
      iteration data = Js.Int (Z.of_nat (length history) + 1).

(** The caller of the loop: one awaited call per feedback, each started
    when the one before has returned or thrown. *)
Fixpoint submitAll (T : Transport) (feedbacks : list Feedback) (w : World) : option World :=
  match feedbacks with
  | [] => Some w
  | f :: rest =>
      match submitFeedbackAndGetNextImage 1 T (Some f) None None w with
      | Some (_, w') => submitAll T rest w'
      | None => None
      end
  end.

Definition inOrder : Transport :=
  withIteration (fun history _ =>
    served "https://img.example/next.jpg" (Z.of_nat (length history) + 1)).

Definition withPreference
    (f : list Request -> Request -> Js.completion (Response AuthResponse)) : Transport :=
  {| post_preference := f; post_iteration := noAnswer; post_profile := noAnswer;
     get_profile := noAnswer; get_root := noAnswer |}.

(** The server opens a session. *)
Definition welcoming : Transport :=
  withPreference (fun _ _ =>
    Js.Return (Success (Js.Return {| preference_id := "pref-2"; ai_id := "ai-2" |}))).

(** The server refuses the access id. *)
Definition refusing : Transport :=
  withPreference (fun _ _ =>
    Js.Return (Failure 403 (Js.Return {| error := Some "Invalid access ID" |}))).

(** The server is broken and says so. *)
Definition failing : Transport :=
  withIteration (fun _ _ =>
    Js.Return (Failure 500 (Js.Return {| error := Some "Internal error" |}))).

(** The server reports the end of the images with a status other than
    400. *)
Definition goneAway : Transport :=
  withIteration (fun _ _ =>
    Js.Return (Failure 410 (Js.Return {| error := Some "No more images available" |}))).

(** The request of [authenticate]. *)
Definition authRequest (c : StyleApiClient) (accessId gender : string) : Request :=
  {| url := apiBaseUrl c +:+ "/preference";
     method := "POST";
     headers := [("Content-Type", "application/json"); ("Accept", "application/json")];
     body := Some [("access_id", accessId); ("gender", gender)] |}.

(** A text that starts with an ASCII character which is neither white
    space, nor a sign, nor a decimal digit: no number can be read off it,
    in the model and in the language alike. *)
Definition unreadable (text : string) : bool :=
  match text with
  | EmptyString => false
  | String c _ =>
      (N_of_ascii c <? 128)%N
      && negb (Js.is_white_space c)
      && negb (Ascii.eqb c "-") && negb (Ascii.eqb c "+")
      && match Js.digit_value 10 c with Some _ => false | None => true end
  end.

(** ** The model on a few inputs *)

Example parseInt_zero : Js.parseInt "0" = Js.Int 0.
Proof. reflexivity. Qed.
Example parseInt_29 : Js.parseInt "  29px" = Js.Int 29.
Proof. reflexivity. Qed.
Example parseInt_hex : Js.parseInt "-0x1F" = Js.Int (-31).
Proof. reflexivity. Qed.
Example parseInt_nan : Js.parseInt "abc" = Js.NaN.
Proof. reflexivity. Qed.
Example toString_30 : Js.toString (Js.Int 30) = "30".
Proof. vm_compute. reflexivity. Qed.
Example includes_mid :
  Js.includes "Error: No more images available today" "No more images available" = true.
Proof. reflexivity. Qed.
Example constructor_garbage :
  currentIteration (constructor defaultBaseUrl {[ "style_current_iteration" := "next" ]})
    = Js.NaN.
Proof. reflexivity. Qed.
Example constructor_empty_store :
  constructor defaultBaseUrl ∅
    = {| apiBaseUrl := defaultBaseUrl; aiId := None; preferenceId := None;
         currentIteration := Js.Int 0 |}.
Proof. reflexivity. Qed.
Example final_request_body :
  body (iterationRequest (this (session (Js.Int 29))) (Js.Int 30)
          None (Some "boho") (Some "img-9"))
    = Some [("feedback", "dislike"); ("style", "boho"); ("image_key", "img-9")].
Proof. reflexivity. Qed.

(** ** Truthiness and the guards *)

Lemma truthy_Some (s : string) : Js.truthy (Some s) = true <-> s <> "".
Proof. destruct s; simpl; split; intros; congruence. Qed.

Lemma truthy_None_false (v : option string) : v = None -> Js.truthy v = false.
Proof. intros ->. reflexivity. Qed.

(** The guard of the three session methods passes exactly when
    [isAuthenticated] holds. *)
Lemma guard_authenticated (c : StyleApiClient) :
  isAuthenticated c = true ->
  negb (Js.truthy (aiId c)) || negb (Js.truthy (preferenceId c)) = false.
Proof.
  unfold isAuthenticated. intros [-> ->]%andb_true_iff. reflexivity.
Qed.

Lemma guard_no_session (c : StyleApiClient) :
  aiId c = None \/ preferenceId c = None ->
  negb (Js.truthy (aiId c)) || negb (Js.truthy (preferenceId c)) = true.
Proof.
  intros [H | H]; rewrite (truthy_None_false _ H); simpl; [reflexivity |].
  apply orb_true_r.
Qed.

(** Below 30 the next iteration is at most 30: the second bound check of
    [submitFeedbackAndGetNextImage] never fires on integers. *)
Lemma next_within_limit (n : Js.number) :
  Js.ge n (Js.Int 30) = false -> Js.gt (nextIterationOf n) (Js.Int 30) = false.
Proof.
  destruct n as [| z]; [reflexivity |].
  unfold nextIterationOf; simpl. intros H%Z.leb_gt.
  destruct (z =? 0) eqn:E; simpl; [reflexivity | apply Z.ltb_ge; lia].
Qed.

(** ** Session data and the persistent store *)

(** C7: after [clearSessionData()] the getters give null, null and 0,
    [isAuthenticated] is false and none of the three keys is left in the
    persistent store. *)
Theorem clearSessionData_clears (w : World) :
  let w' := clearSessionData w in
  getAiId (this w') = None /\
  getPreferenceId (this w') = None /\
  getCurrentIteration (this w') = Js.Int 0 /\
  isAuthenticated (this w') = false /\
  localStorage w' !! "style_ai_id" = None /\
  localStorage w' !! "style_preference_id" = None /\
  localStorage w' !! "style_current_iteration" = None.
Proof.
  simpl. repeat split; by simplify_map_eq.
Qed.

(** What a new client finds in the store that [setSessionData] wrote. *)
Lemma constructor_after_setSessionData (a b baseUrl : string) (w : World) :
  constructor baseUrl (localStorage (setSessionData a b w)) =
  {| apiBaseUrl := baseUrl; aiId := Some a; preferenceId := Some b;
     currentIteration := Js.Int 0 |}.
Proof.
  unfold constructor, setSessionData; simpl.
  by simplify_map_eq.
Qed.

(** C6, as the code has it: for all strings [a] and [b],
    [setSessionData(a,b)] followed by the construction of a new client over
    the same store gives a client whose ids are [a] and [b] and whose
    iteration is 0; that client is authenticated exactly when [a] and [b]
    are both non-empty. *)
Theorem setSessionData_round_trip (a b baseUrl : string) (w : World) :
  let c := constructor baseUrl (localStorage (setSessionData a b w)) in
  getAiId c = Some a /\
  getPreferenceId c = Some b /\
  getCurrentIteration c = Js.Int 0 /\
  (isAuthenticated c = true <-> a <> "" /\ b <> "").
Proof.
  cbv zeta. rewrite constructor_after_setSessionData.
  unfold isAuthenticated, getAiId, getPreferenceId, getCurrentIteration.
  cbn [aiId preferenceId currentIteration].
  do 3 (split; [reflexivity |]).
  by rewrite andb_true_iff, !truthy_Some.
Qed.

(** C6 as stated fails at the empty string: the ids come back, but the new
    client is not authenticated. *)
Lemma setSessionData_round_trip_empty_id :
  let c := constructor defaultBaseUrl
             (localStorage (setSessionData "" "pref-1" (load defaultBaseUrl ∅))) in
  getAiId c = Some "" /\
  getPreferenceId c = Some "pref-1" /\
  getCurrentIteration c = Js.Int 0 /\
  isAuthenticated c = false.
Proof.
  cbv zeta. rewrite constructor_after_setSessionData. repeat split.
Qed.

(** C8, as the code has it: [isAuthenticated] holds exactly when [aiId] and
    [preferenceId] are both neither null nor the empty string.  So it is
    equivalent to both ids being non-null for all non-empty values of the
    ids, in every state. *)
Theorem isAuthenticated_iff (c : StyleApiClient) :
  isAuthenticated c = true <->
  (exists a, aiId c = Some a /\ a <> "") /\ (exists p, preferenceId c = Some p /\ p <> "").
Proof.
  unfold isAuthenticated. rewrite andb_true_iff.
  assert (H : forall v, Js.truthy v = true <-> exists s, v = Some s /\ s <> "").
  { intros [s |]; simpl.
    - rewrite (truthy_Some s). split; [eauto |]. by intros (? & [= <-] & ?).
    - split; [discriminate |]. by intros (? & [=] & _). }
  by rewrite !H.
Qed.

(** C8 as stated fails in a reachable state: after [setSessionData] with an
    empty [aiId], both ids are non-null and [isAuthenticated] is false. *)
Lemma isAuthenticated_empty_id :
  let w := setSessionData "" "pref-1" (load defaultBaseUrl ∅) in
  reachable offline defaultBaseUrl ∅ w /\
  aiId (this w) <> None /\
  preferenceId (this w) <> None /\
  isAuthenticated (this w) = false.
Proof.
  simpl. repeat split; try discriminate.
  eapply reachable_step; [apply reachable_load | apply step_setSessionData].
Qed.

(** ** The guards of the session methods *)

(** C5: with no session ([aiId] or [preferenceId] null) each of
    [submitFeedbackAndGetNextImage], [saveProfile] and [getProfile] throws
    the "Not authenticated" error, sends nothing and leaves the object and
    the store as they were. *)
Theorem no_session_no_call (T : Transport) (fuel : nat)
    (feedback : option Feedback) (style imageKey : option string) (w : World) :
  aiId (this w) = None \/ preferenceId (this w) = None ->
  submitFeedbackAndGetNextImage (S fuel) T feedback style imageKey w
    = Some (Js.Throw (Js.Error "Not authenticated. Please authenticate first."), w) /\
  saveProfile T w = (Js.Throw (Js.Error "Not authenticated. Please authenticate first."), w) /\
  getProfile T w = (Js.Throw (Js.Error "Not authenticated. Please authenticate first."), w).
Proof.
  intros H%guard_no_session.
  unfold saveProfile, getProfile. cbn [submitFeedbackAndGetNextImage].
  rewrite H. repeat split.
Qed.

Lemma no_session_no_call_witness :
  let w := load defaultBaseUrl ∅ in
  submitFeedbackAndGetNextImage 1 offline (Some like) None None w
    = Some (Js.Throw (Js.Error "Not authenticated. Please authenticate first."), w) /\
  saveProfile offline w = (Js.Throw (Js.Error "Not authenticated. Please authenticate first."), w) /\
  getProfile offline w = (Js.Throw (Js.Error "Not authenticated. Please authenticate first."), w).
Proof.
  apply (no_session_no_call offline 0 (Some like) None None (load defaultBaseUrl ∅)).
  left. reflexivity.
Defined.

(** ** The iteration loop *)

(** C1: at an iteration [n >= 30] an authenticated client answers
    [{image_url: "", iteration: n, completed: true}] by itself: the world,
    and with it the list of requests sent, is unchanged. *)
Theorem exhausted_no_call (T : Transport) (fuel : nat)
    (feedback : option Feedback) (style imageKey : option string) (w : World) (n : Z) :
  isAuthenticated (this w) = true ->
  currentIteration (this w) = Js.Int n ->
  30 <= n ->
  submitFeedbackAndGetNextImage (S fuel) T feedback style imageKey w
    = Some (Js.Return {| image_url := ""; iteration := Js.Int n; completed := true;
                         style := None; image_key := None |}, w).
Proof.
  intros Hauth%guard_authenticated Hn Hge.
  cbn [submitFeedbackAndGetNextImage]. rewrite Hauth, Hn. simpl.
  apply Z.leb_le in Hge as ->. reflexivity.
Qed.

Lemma exhausted_no_call_witness :
  submitFeedbackAndGetNextImage 1 offline (Some like) None None (session (Js.Int 31))
    = Some (Js.Return {| image_url := ""; iteration := Js.Int 31; completed := true;
                         style := None; image_key := None |}, session (Js.Int 31)).
Proof.
  apply (exhausted_no_call offline 0 (Some like) None None (session (Js.Int 31)) 31);
    [reflexivity | reflexivity | lia].
Defined.

Ltac enter_submit Hauth Hbelow :=
  cbn [submitFeedbackAndGetNextImage];
  rewrite (guard_authenticated _ Hauth), Hbelow, (next_within_limit _ Hbelow);
  cbn [negb orb].

(** The answer "No more images available" ends the loop. *)
Lemma completedOrRethrow_completed (msg : string) (w : World) :
  Js.includes msg "No more images available" = true ->
  completedOrRethrow (Js.Error msg) w
    = (Js.Return (terminal (Js.Int 30)), setCurrentIteration (Js.Int 30) w).
Proof. unfold completedOrRethrow. intros ->. reflexivity. Qed.

Lemma setCurrentIteration_persisted (n : Js.number) (w : World) :
  currentIteration (this (setCurrentIteration n w)) = n /\
  localStorage (setCurrentIteration n w) !! "style_current_iteration" = Some (Js.toString n).
Proof. split; [reflexivity |]. simpl. by simplify_map_eq. Qed.



(** A text that contains [sub] still contains it after a prefix is put
    in front of it. *)
Lemma includes_app_r (pre s sub : string) :
  Js.includes s sub = true -> Js.includes (pre +:+ s) sub = true.
Proof.
  intros H. induction pre as [| c pre IH]; [exact H |].
  change (String c pre +:+ s) with (String c (pre +:+ s)).
  cbn [Js.includes]. rewrite IH.
  by destruct (String.prefix sub (String c (pre +:+ s))).
Qed.

Lemma includes_nonempty (s : string) :
  Js.includes s "No more images available" = true -> s <> "".
Proof. intros H ->. discriminate H. Qed.

(** C10: below iteration 30, a 400 whose error text is not "No more images
    available" but contains it ends the loop as well: the error built for
    the unrecognised 400 carries the text in its message and the [catch]
    turns it into the completion result, with the counter set to 30. *)
Theorem no_more_images_substring_completes (T : Transport) (fuel : nat)
    (feedback : option Feedback) (style imageKey : option string) (w : World)
    (text : string) :
  isAuthenticated (this w) = true ->
  Js.ge (currentIteration (this w)) (Js.Int 30) = false ->
  text <> "No more images available" ->
  Js.includes text "No more images available" = true ->
  let request := request_of w feedback style imageKey in
  let done := setCurrentIteration (Js.Int 30) (sent request w) in
  post_iteration T (requests w) request
    = Js.Return (Failure 400 (Js.Return {| error := Some text |})) ->
  submitFeedbackAndGetNextImage (S fuel) T feedback style imageKey w
    = Some (Js.Return {| image_url := ""; iteration := Js.Int 30; completed := true;
                         style := None; image_key := None |}, done) /\
  currentIteration (this done) = Js.Int 30 /\
  localStorage done !! "style_current_iteration" = Some "30".
Proof.
  intros Hauth Hbelow Hne Hin request done Hanswer.
  split; [| apply (setCurrentIteration_persisted (Js.Int 30))].
  enter_submit Hauth Hbelow.
  fold (request_of w feedback style imageKey). fold request. rewrite Hanswer.
  cbn [Z.eqb Pos.eqb error].
  rewrite decide_False by congruence.
  rewrite decide_False by (intros [= ->]; discriminate Hin).
  rewrite completedOrRethrow_completed; [reflexivity |].
  unfold failureMessage, Js.or_else. cbn [error].
  pose proof (includes_nonempty _ Hin) as Hnonempty.
  apply truthy_Some in Hnonempty as ->. cbn [default].
  by do 4 apply includes_app_r.
Qed.

Lemma no_more_images_substring_completes_witness :
  let w := session (Js.Int 12) in
  let done := setCurrentIteration (Js.Int 30) (sent (request_of w None None None) w) in
  submitFeedbackAndGetNextImage 1
    (withIteration (fun _ _ => badRequest "Error: No more images available today"))
    None None None w
    = Some (Js.Return (terminal (Js.Int 30)), done) /\
  currentIteration (this done) = Js.Int 30 /\
  localStorage done !! "style_current_iteration" = Some "30".
Proof.
  apply (no_more_images_substring_completes
           (withIteration (fun _ _ => badRequest "Error: No more images available today"))
           0 None None None (session (Js.Int 12)) "Error: No more images available today");
    [reflexivity | reflexivity | discriminate | reflexivity | reflexivity].
Defined.

(** ** The profile *)

(** C4: for an authenticated client [getProfile] always returns and never
    throws, whatever the transport does; it returns the empty profile on a
    400 response, on any other failed response, when the transport throws
    and when the body of the response cannot be read. *)
Theorem getProfile_never_throws (T : Transport) (w : World) :
  isAuthenticated (this w) = true ->
  let request := profileRequest (this w) "GET" [] in
  let answer := get_profile T (requests w) request in
  let empty := {| top_styles := ∅; selection_history := [] |} in
  (exists profile, getProfile T w = (Js.Return profile, sent request w)) /\
  (forall json, answer = Js.Return (Failure 400 json) ->
     getProfile T w = (Js.Return empty, sent request w)) /\
  (forall status json, answer = Js.Return (Failure status json) ->
     getProfile T w = (Js.Return empty, sent request w)) /\
  (forall e, answer = Js.Throw e ->
     getProfile T w = (Js.Return empty, sent request w)) /\
  (forall e, answer = Js.Return (Success (Js.Throw e)) ->
     getProfile T w = (Js.Return empty, sent request w)).
Proof.
  intros Hauth%guard_authenticated request answer empty.
  unfold getProfile. rewrite Hauth. fold request. fold answer.
  split; [| split; [| split; [| split]]].
  - destruct answer as [[status [errorResponse | e] | [data | e]] | e];
      try destruct (status =? 400); eexists; reflexivity.
  - intros json ->. reflexivity.
  - intros status json ->.
    destruct (status =? 400); [reflexivity |]. by destruct json.
  - intros e ->. reflexivity.
  - intros e ->. reflexivity.
Qed.

Lemma getProfile_never_throws_witness :
  getProfile offline (session (Js.Int 3))
    = (Js.Return {| top_styles := ∅; selection_history := [] |},
       sent (profileRequest (this (session (Js.Int 3))) "GET" []) (session (Js.Int 3))).
Proof.
  destruct (getProfile_never_throws offline (session (Js.Int 3)) eq_refl)
    as (_ & _ & _ & H & _).
  exact (H (Js.Error "Failed to fetch") eq_refl).
Defined.

(** ** The range of the iteration counter *)

Lemma completedOrRethrow_range (e : Js.thrown) (w : World) :
  inRange (currentIteration (this w)) ->
  inRange (currentIteration (this (completedOrRethrow e w).2)).
Proof.
  intros H. unfold completedOrRethrow.
  destruct e as [msg | v]; [| exact H].
  destruct (Js.includes msg "No more images available"); [simpl; lia | exact H].
Qed.

Lemma submit_range (T : Transport) (feedback : option Feedback)
    (style imageKey : option string) (fuel : nat) :
  servesInRange T ->
  forall w r w',
    submitFeedbackAndGetNextImage fuel T feedback style imageKey w = Some (r, w') ->
    inRange (currentIteration (this w)) ->
    inRange (currentIteration (this w')).
Proof.
  intros HT. induction fuel as [| fuel IH]; intros w r w' Hrun Hw; [discriminate |].
  cbn [submitFeedbackAndGetNextImage] in Hrun.
  repeat match type of Hrun with
         | (if ?b then _ else _) = _ => destruct b
         | Some _ = Some _ => injection Hrun as <- <-
         end; try exact Hw.
  set (request := iterationRequest _ _ _ _ _) in Hrun.
  pose proof (completedOrRethrow_range) as Hcatch.
  destruct (post_iteration T (requests w) request)
    as [[status [errorData | e] | [data | e]] | e] eqn:Hanswer;
    repeat match type of Hrun with
           | (if ?b then _ else _) = _ => destruct b
           | Some (completedOrRethrow ?e ?w) = Some _ =>
               specialize (Hcatch e w Hw); destruct (completedOrRethrow e w);
               injection Hrun as <- <-; exact Hcatch
           | Some _ = Some _ => injection Hrun as <- <-
           end.
  - simpl. lia.
  - apply (IH _ _ _ Hrun). simpl. lia.
  - simpl. exact (HT _ _ _ Hanswer).
Qed.

(** C9, as the code has it: the client never clamps an iteration it is
    given.  Every call keeps the counter an integer between 0 and 30
    provided the iterations that come from outside are in that range: the
    argument of [setCurrentIteration] and the [iteration] of every
    successful answer of the iteration endpoint. *)
Theorem step_preserves_range (T : Transport) (w w' : World) (c : Call) :
  servesInRange T ->
  passesInRange c ->
  step T w c w' ->
  inRange (currentIteration (this w)) ->
  inRange (currentIteration (this w')).
Proof.
  intros HT Hc Hstep Hw. destruct Hstep; simpl in *; try lia; try exact Hc.
  - unfold authenticate.
    destruct (post_preference T _ _) as [[status [? | ?] | [? | ?]] | ?]; simpl; try exact Hw; lia.
  - eapply submit_range; eassumption.
  - unfold saveProfile.
    destruct (_ || _); [exact Hw |].
    destruct (post_profile T _ _) as [[status [? | ?] | [? | ?]] | ?]; exact Hw.
  - unfold getProfile.
    destruct (_ || _); [exact Hw |].
    destruct (get_profile T _ _) as [[status [? | ?] | [? | ?]] | ?];
      try destruct (status =? 400); exact Hw.
  - unfold checkApiHealth.
    destruct (get_root T _ _) as [[status ? | [? | ?]] | ?]; exact Hw.
Qed.

Lemma invalidTwice_servesInRange : servesInRange invalidTwice.
Proof.
  intros history request data. simpl.
  destruct (length history <? 2)%nat; [discriminate |].
  intros [= <-]. simpl. lia.
Qed.

Lemma invalidTwice_step :
  step invalidTwice (session (Js.Int 7))
    (call_submitFeedbackAndGetNextImage (Some like) None None)
    (afterTwoRetries (Some like) (session (Js.Int 7))).
Proof.
  by apply (step_submit invalidTwice 3 (Some like) None None (session (Js.Int 7))
              (Js.Return {| image_url := "https://img.example/1.jpg"; iteration := Js.Int 1;
                            completed := false; style := None; image_key := None |})).
Qed.

Lemma step_preserves_range_witness :
  inRange (currentIteration (this (afterTwoRetries (Some like) (session (Js.Int 7))))).
Proof.
  apply (step_preserves_range invalidTwice (session (Js.Int 7))
           (afterTwoRetries (Some like) (session (Js.Int 7)))
           (call_submitFeedbackAndGetNextImage (Some like) None None)).
  - exact invalidTwice_servesInRange.
  - exact I.
  - exact invalidTwice_step.
  - simpl. lia.
Defined.

(** C9 as stated fails: from a session at iteration 7, a successful answer
    that carries iteration 31 is persisted as it is, and so is the argument
    of [setCurrentIteration(31)]. *)
Lemma counter_leaves_range :
  let w := session (Js.Int 7) in
  let served31 := setCurrentIteration (Js.Int 31)
                    (sent (request_of w (Some like) None None) w) in
  reachable overshooting defaultBaseUrl ∅ w /\
  inRange (currentIteration (this w)) /\
  step overshooting w (call_submitFeedbackAndGetNextImage (Some like) None None) served31 /\
  currentIteration (this served31) = Js.Int 31 /\
  ~ inRange (currentIteration (this served31)) /\
  step overshooting w (call_setCurrentIteration (Js.Int 31)) (setCurrentIteration (Js.Int 31) w) /\
  ~ inRange (currentIteration (this (setCurrentIteration (Js.Int 31) w))).
Proof.
  intros w served31. split; [| split; [| split; [| split; [| split; [| split]]]]].
  - eapply reachable_step; [| apply step_setCurrentIteration].
    eapply reachable_step; [apply reachable_load | apply step_setSessionData].
  - simpl. lia.
  - by apply (step_submit overshooting 1 (Some like) None None w
                (Js.Return {| image_url := "https://img.example/31.jpg"; iteration := Js.Int 31;
                              completed := true; style := None; image_key := None |})).
  - reflexivity.
  - simpl. lia.
  - apply step_setCurrentIteration.
  - simpl. lia.
Qed.

(** ** The retry after "Invalid iteration ID" *)

(** A call that returns has only added requests to the history. *)
Lemma submit_requests_grow (T : Transport) (feedback : option Feedback)
    (style imageKey : option string) (fuel : nat) :
  forall w r w',
    submitFeedbackAndGetNextImage fuel T feedback style imageKey w = Some (r, w') ->
    exists rest, requests w' = (requests w ++ rest)%list.
Proof.
  assert (Hcatch : forall e w, requests (completedOrRethrow e w).2 = requests w).
  { intros [msg | v] w; unfold completedOrRethrow; [| reflexivity].
    by destruct (Js.includes msg _). }
  induction fuel as [| fuel IH]; intros w r w' Hrun; [discriminate |].
  cbn [submitFeedbackAndGetNextImage] in Hrun.
  repeat match type of Hrun with
         | (if ?b then _ else _) = _ => destruct b
         | Some _ = Some _ => injection Hrun as <- <-
         end; try (exists []; by rewrite app_nil_r).
  set (request := iterationRequest _ _ _ _ _) in Hrun.
  destruct (post_iteration T (requests w) request)
    as [[status [errorData | e] | [data | e]] | e];
    repeat match type of Hrun with
           | (if ?b then _ else _) = _ => destruct b
           | Some (completedOrRethrow ?e ?w) = Some _ =>
               specialize (Hcatch e w); destruct (completedOrRethrow e w);
               injection Hrun as <- <-; exists [request]; exact Hcatch
           | Some _ = Some _ => injection Hrun as <- <-; exists [request]; reflexivity
           end.
  destruct (IH _ _ _ Hrun) as [rest Hrest].
  exists (request :: rest). rewrite Hrest. simpl. by rewrite <- app_assoc.
Qed.

(** A server that rejects every iteration keeps the client retrying: no
    amount of fuel lets the call return. *)
Lemma always_invalid_never_returns (T : Transport) (feedback : option Feedback)
    (style imageKey : option string) (fuel : nat) :
  (forall history request,
     post_iteration T history request = badRequest "Invalid iteration ID") ->
  forall w,
    isAuthenticated (this w) = true ->
    Js.ge (currentIteration (this w)) (Js.Int 30) = false ->
    submitFeedbackAndGetNextImage fuel T feedback style imageKey w = None.
Proof.
  intros HT. induction fuel as [| fuel IH]; intros w Hauth Hbelow; [reflexivity |].
  enter_submit Hauth Hbelow. rewrite HT. unfold badRequest.
  cbn [Z.eqb Pos.eqb error].
  rewrite decide_False by discriminate. rewrite decide_True by reflexivity.
  apply IH; [exact Hauth | reflexivity].
Qed.

Lemma completedOrRethrow_cases (e : Js.thrown) (w : World) :
  completedOrRethrow e w
    = (Js.Return (terminal (Js.Int 30)), setCurrentIteration (Js.Int 30) w) \/
  completedOrRethrow e w = (Js.Throw e, w).
Proof.
  destruct e as [msg | v]; unfold completedOrRethrow; [| by right].
  destruct (Js.includes msg _); [by left | by right].
Qed.

(** Any answer but the 400 "Invalid iteration ID" ends the call: it
    returns or throws, with whatever fuel, after this one request. *)
Lemma one_answer_suffices (T : Transport)
    (feedback : option Feedback) (style imageKey : option string) (w : World) :
  isAuthenticated (this w) = true ->
  Js.ge (currentIteration (this w)) (Js.Int 30) = false ->
  let request := request_of w feedback style imageKey in
  post_iteration T (requests w) request
    <> Js.Return (Failure 400 (Js.Return {| error := Some "Invalid iteration ID" |})) ->
  exists r w',
    (forall fuel,
       submitFeedbackAndGetNextImage (S fuel) T feedback style imageKey w = Some (r, w')) /\
    requests w' = (requests w ++ [request])%list.
Proof.
  intros Hauth Hbelow request Hother.
  assert (Hcatch : forall e,
            exists r w', Some (completedOrRethrow e (sent request w)) = Some (r, w') /\
                         requests w' = (requests w ++ [request])%list).
  { intros e. destruct (completedOrRethrow_cases e (sent request w)) as [-> | ->];
      eexists _, _; split; reflexivity. }
  assert (Hrun : forall fuel,
            submitFeedbackAndGetNextImage (S fuel) T feedback style imageKey w
            = match post_iteration T (requests w) request with
              | Js.Throw e => Some (completedOrRethrow e (sent request w))
              | Js.Return (Failure status json) =>
                  if status =? 400
                  then
                    match json with
                    | Js.Throw e => Some (completedOrRethrow e (sent request w))
                    | Js.Return errorData =>
                        if decide (error errorData = Some "No more images available")
                        then Some (Js.Return (terminal (Js.Int 30)),
                                   setCurrentIteration (Js.Int 30) (sent request w))
                        else if decide (error errorData = Some "Invalid iteration ID")
                        then submitFeedbackAndGetNextImage fuel T feedback style imageKey
                               (setCurrentIteration (Js.Int 0) (sent request w))
                        else Some (completedOrRethrow
                                     (Js.Error (failureMessage "Failed to submit feedback"
                                                  status errorData)) (sent request w))
                    end
                  else
                    match json with
                    | Js.Throw e => Some (completedOrRethrow e (sent request w))
                    | Js.Return errorResponse =>
                        Some (completedOrRethrow
                                (Js.Error (failureMessage "Failed to submit feedback"
                                             status errorResponse)) (sent request w))
                    end
              | Js.Return (Success json) =>
                  match json with
                  | Js.Throw e => Some (completedOrRethrow e (sent request w))
                  | Js.Return data =>
                      Some (Js.Return (withCompleted data (Js.ge (iteration data) (Js.Int 30))),
                            setCurrentIteration (iteration data) (sent request w))
                  end
              end).
  { intros fuel. by enter_submit Hauth Hbelow. }
  destruct (post_iteration T (requests w) request)
    as [[status [[text] | e] | [data | e]] | e].
  - destruct (status =? 400) eqn:Hstatus.
    + apply Z.eqb_eq in Hstatus. subst status. cbn [error] in Hrun.
      destruct (decide (text = Some "No more images available"));
        [eexists _, _; split; [exact Hrun | reflexivity] |].
      destruct (decide (text = Some "Invalid iteration ID")); [by subst |].
      destruct (Hcatch (Js.Error (failureMessage "Failed to submit feedback" 400
                                    {| error := text |}))) as (r & w' & Hr & Hw').
      exists r, w'. split; [| exact Hw']. intros fuel. by rewrite Hrun.
    + destruct (Hcatch (Js.Error (failureMessage "Failed to submit feedback" status
                                    {| error := text |}))) as (r & w' & Hr & Hw').
      exists r, w'. split; [| exact Hw']. intros fuel. by rewrite Hrun.
  - destruct (Hcatch e) as (r & w' & Hr & Hw').
    exists r, w'. split; [| exact Hw']. intros fuel. rewrite Hrun.
    by destruct (status =? 400).
  - eexists _, _. split; [exact Hrun | reflexivity].
  - destruct (Hcatch e) as (r & w' & Hr & Hw').
    exists r, w'. split; [| exact Hw']. intros fuel. by rewrite Hrun.
  - destruct (Hcatch e) as (r & w' & Hr & Hw').
    exists r, w'. split; [| exact Hw']. intros fuel. by rewrite Hrun.
Qed.

(** From a world whose counter is 0: [k] rejections in a row and then any
    other answer make [k + 1] requests for iteration 1, and the call ends
    with the last answer. *)
Lemma retries_until_answered (T : Transport)
    (feedback : option Feedback) (style imageKey : option string) (k : nat) :
  forall (fuel : nat) (v : World),
    isAuthenticated (this v) = true ->
    currentIteration (this v) = Js.Int 0 ->
    let retry := iterationRequest (this v) (Js.Int 1) feedback style imageKey in
    (forall j, (j < k)%nat ->
       post_iteration T (requests v ++ repeat retry j)%list retry
         = Js.Return (Failure 400 (Js.Return {| error := Some "Invalid iteration ID" |}))) ->
    post_iteration T (requests v ++ repeat retry k)%list retry
      <> Js.Return (Failure 400 (Js.Return {| error := Some "Invalid iteration ID" |})) ->
    exists r w',
      submitFeedbackAndGetNextImage (S (k + fuel)) T feedback style imageKey v
        = Some (r, w') /\
      requests w' = (requests v ++ repeat retry (S k))%list.
Proof.
  induction k as [| k IH]; intros fuel v Hauth Hzero retry Hrejected Hanswered.
  - assert (Hrequest : request_of v feedback style imageKey = retry).
    { unfold request_of. by rewrite Hzero. }
    cbn [repeat] in Hanswered. rewrite app_nil_r in Hanswered.
    destruct (one_answer_suffices T feedback style imageKey v Hauth) as (r & w' & Hrun & Hsent).
    + by rewrite Hzero.
    + by rewrite Hrequest.
    + exists r, w'. split; [apply Hrun |]. by rewrite Hsent, Hrequest.
  - assert (Hbelow : Js.ge (currentIteration (this v)) (Js.Int 30) = false)
      by (by rewrite Hzero).
    pose proof (Hrejected 0%nat ltac:(lia)) as Hfirst.
    cbn [repeat] in Hfirst. rewrite app_nil_r in Hfirst.
    set (v1 := setCurrentIteration (Js.Int 0) (sent retry v)).
    assert (Hstep : submitFeedbackAndGetNextImage (S (S k + fuel)) T feedback style imageKey v
                    = submitFeedbackAndGetNextImage (S (k + fuel)) T feedback style imageKey v1).
    { enter_submit Hauth Hbelow. rewrite Hzero.
      change (iterationRequest (this v) (nextIterationOf (Js.Int 0)) feedback style imageKey)
        with retry.
      rewrite Hfirst. cbn [Z.eqb Pos.eqb error].
      rewrite decide_False by discriminate. by rewrite decide_True. }
    destruct (IH fuel v1) as (r & w' & Hrun & Hsent).
    + exact Hauth.
    + reflexivity.
    + intros j Hj. specialize (Hrejected (S j) ltac:(lia)).
      cbn [repeat] in Hrejected.
      change (requests v1) with (requests v ++ [retry])%list.
      by rewrite <- app_assoc.
    + change (requests v1) with (requests v ++ [retry])%list.
      by rewrite <- app_assoc.
    + exists r, w'. split; [by rewrite Hstep |].
      rewrite Hsent. change (requests v1) with (requests v ++ [retry])%list.
      by rewrite <- app_assoc.
Qed.

(** The request of an authenticated client below 30 is the first thing a
    call adds to the history. *)
Lemma submit_sends_first (T : Transport) (fuel : nat)
    (feedback : option Feedback) (style imageKey : option string)
    (w w' : World) (r : Js.completion IterationResponse) :
  isAuthenticated (this w) = true ->
  Js.ge (currentIteration (this w)) (Js.Int 30) = false ->
  submitFeedbackAndGetNextImage fuel T feedback style imageKey w = Some (r, w') ->
  exists rest,
    requests w' = (requests w ++ request_of w feedback style imageKey :: rest)%list.
Proof.
  intros Hauth Hbelow. destruct fuel as [| fuel]; [discriminate |].
  enter_submit Hauth Hbelow.
  fold (request_of w feedback style imageKey).
  set (request := request_of w feedback style imageKey).
  assert (Hcatch : forall e,
            Some (completedOrRethrow e (sent request w)) = Some (r, w') ->
            exists rest, requests w' = (requests w ++ request :: rest)%list).
  { intros e [= He]. exists [].
    destruct (completedOrRethrow_cases e (sent request w)) as [H | H];
      rewrite H in He; by injection He as <- <-. }
  destruct (post_iteration T (requests w) request)
    as [[status [errorData | e] | [data | e]] | e]; intros Hrun;
    repeat match type of Hrun with
           | (if ?b then _ else _) = _ => destruct b
           | Some (completedOrRethrow _ _) = Some _ => exact (Hcatch _ Hrun)
           | Some _ = Some _ => injection Hrun as <- <-; by exists []
           end.
  destruct (submit_requests_grow _ _ _ _ _ _ _ _ Hrun) as [rest ->].
  exists rest. simpl. by rewrite <- app_assoc.
Qed.

(** C2, as the code has it: below iteration 30, a 400 whose error text is
    exactly "Invalid iteration ID" makes the client set the counter to 0,
    in the object and in the store, and call itself with the same
    arguments; that call sends its request to iteration 1.  It is the same
    code that runs again, so a further "Invalid iteration ID" is reset and
    retried in the same way, without a cap: when [k] more such answers are
    followed by any other answer, the call ends after [k + 2] requests, all
    but the first for iteration 1; and while the transport keeps giving
    this answer the call does not return. *)
Theorem invalid_iteration_retries (T : Transport) (fuel : nat)
    (feedback : option Feedback) (style imageKey : option string) (w : World) :
  isAuthenticated (this w) = true ->
  Js.ge (currentIteration (this w)) (Js.Int 30) = false ->
  let request := request_of w feedback style imageKey in
  post_iteration T (requests w) request
    = Js.Return (Failure 400 (Js.Return {| error := Some "Invalid iteration ID" |})) ->
  let reset := setCurrentIteration (Js.Int 0) (sent request w) in
  let retry := iterationRequest (this w) (Js.Int 1) feedback style imageKey in
  (currentIteration (this reset) = Js.Int 0 /\
   localStorage reset !! "style_current_iteration" = Some "0") /\
  submitFeedbackAndGetNextImage (S fuel) T feedback style imageKey w
    = submitFeedbackAndGetNextImage fuel T feedback style imageKey reset /\
  url retry = apiBaseUrl (this w) +:+ "/preference/" +:+ Js.template (preferenceId (this w))
                +:+ "/iteration/1" /\
  (forall k,
     (forall j, (j < k)%nat ->
        post_iteration T (requests w ++ request :: repeat retry j)%list retry
          = Js.Return (Failure 400 (Js.Return {| error := Some "Invalid iteration ID" |}))) ->
     post_iteration T (requests w ++ request :: repeat retry k)%list retry
       <> Js.Return (Failure 400 (Js.Return {| error := Some "Invalid iteration ID" |})) ->
     exists r w',
       submitFeedbackAndGetNextImage (S (S (k + fuel))) T feedback style imageKey w
         = Some (r, w') /\
       requests w' = (requests w ++ request :: repeat retry (S k))%list) /\
  (forall e,
     post_iteration T (requests w ++ [request])%list retry = Js.Throw e ->
     (forall msg, e = Js.Error msg -> Js.includes msg "No more images available" = false) ->
     submitFeedbackAndGetNextImage (S (S fuel)) T feedback style imageKey w
       = Some (Js.Throw e, sent retry reset)) /\
  (forall r w',
     submitFeedbackAndGetNextImage (S fuel) T feedback style imageKey w = Some (r, w') ->
     exists rest, requests w' = (requests w ++ request :: retry :: rest)%list) /\
  ((forall history r,
      post_iteration T history r
        = Js.Return (Failure 400 (Js.Return {| error := Some "Invalid iteration ID" |}))) ->
   forall n, submitFeedbackAndGetNextImage n T feedback style imageKey w = None).
Proof.
  intros Hauth Hbelow request Hanswer reset retry.
  assert (Hstep : forall n,
            submitFeedbackAndGetNextImage (S n) T feedback style imageKey w
            = submitFeedbackAndGetNextImage n T feedback style imageKey reset).
  { intros n. enter_submit Hauth Hbelow.
    fold (request_of w feedback style imageKey). fold request. rewrite Hanswer.
    cbn [Z.eqb Pos.eqb error].
    rewrite decide_False by discriminate. by rewrite decide_True. }
  assert (Hauth' : isAuthenticated (this reset) = true) by exact Hauth.
  assert (Hbelow' : Js.ge (currentIteration (this reset)) (Js.Int 30) = false)
    by reflexivity.
  split; [apply (setCurrentIteration_persisted (Js.Int 0)) |].
  split; [apply Hstep |].
  split; [reflexivity |].
  split; [| split; [| split]].
  - intros k Hrejected Hanswered. rewrite Hstep.
    destruct (retries_until_answered T feedback style imageKey k fuel reset Hauth' eq_refl)
      as (r & w' & Hrun & Hsent).
    + intros j Hj. change (requests reset) with (requests w ++ [request])%list.
      rewrite <- app_assoc. exact (Hrejected j Hj).
    + change (requests reset) with (requests w ++ [request])%list.
      rewrite <- app_assoc. exact Hanswered.
    + exists r, w'. split; [exact Hrun |].
      rewrite Hsent. change (requests reset) with (requests w ++ [request])%list.
      by rewrite <- app_assoc.
  - intros e Hthrown Hplain. rewrite Hstep. enter_submit Hauth' Hbelow'.
    change (iterationRequest (this reset) (nextIterationOf (currentIteration (this reset)))
              feedback style imageKey) with retry.
    change (requests reset) with (requests w ++ [request])%list. rewrite Hthrown.
    f_equal. destruct e as [msg | v]; [| reflexivity].
    unfold completedOrRethrow. by rewrite (Hplain msg eq_refl).
  - intros r w'. rewrite Hstep. intros Hrun.
    destruct (submit_sends_first T fuel feedback style imageKey reset w' r
                Hauth' Hbelow' Hrun) as [rest Hrest].
    change (request_of reset feedback style imageKey) with retry in Hrest.
    exists rest. rewrite Hrest. change (requests reset) with (requests w ++ [request])%list.
    by rewrite <- app_assoc.
  - intros HT n.
    by apply (always_invalid_never_returns T feedback style imageKey n HT).
Qed.

Lemma invalid_iteration_retries_witness :
  let w := session (Js.Int 7) in
  let request := request_of w (Some like) None None in
  let reset := setCurrentIteration (Js.Int 0) (sent request w) in
  let retry := iterationRequest (this w) (Js.Int 1) (Some like) None None in
  (currentIteration (this reset) = Js.Int 0 /\
   localStorage reset !! "style_current_iteration" = Some "0") /\
  url retry = "https://haider.techrealm.online/api/preference/pref-1/iteration/1" /\
  exists r w',
    submitFeedbackAndGetNextImage 3 invalidTwice (Some like) None None w = Some (r, w') /\
    requests w' = (requests w ++ [request; retry; retry])%list.
Proof.
  intros w request reset retry.
  destruct (invalid_iteration_retries invalidTwice 0 (Some like) None None w
              eq_refl eq_refl eq_refl) as (H1 & _ & H3 & H4 & _).
  split; [exact H1 |]. split; [exact H3 |].
  apply (H4 1%nat).
  - intros j Hj. assert (j = 0%nat) as -> by lia. reflexivity.
  - discriminate.
Defined.

(** C2 as stated fails: when the server rejects the first request and the
    retry as well, the client does not fail, it retries again; here the
    third request is served and the call returns that answer, after three
    requests. *)
Lemma second_retry_is_not_an_error :
  let w := session (Js.Int 7) in
  submitFeedbackAndGetNextImage 3 invalidTwice (Some like) None None w
    = Some (Js.Return {| image_url := "https://img.example/1.jpg"; iteration := Js.Int 1;
                         completed := false; style := None; image_key := None |},
            afterTwoRetries (Some like) w) /\
  map url (requests (afterTwoRetries (Some like) w))
    = [ "https://haider.techrealm.online/api/preference/pref-1/iteration/8";
        "https://haider.techrealm.online/api/preference/pref-1/iteration/1";
        "https://haider.techrealm.online/api/preference/pref-1/iteration/1" ] /\
  submitFeedbackAndGetNextImage 2 invalidTwice (Some like) None None w = None.
Proof.
  split; [| split]; vm_compute; reflexivity.
Qed.

(** Against a server that rejects every iteration the call has not
    returned after any number of retries. *)
Example alwaysInvalid_diverges (fuel : nat) :
  submitFeedbackAndGetNextImage fuel alwaysInvalid (Some like) None None (session (Js.Int 7))
    = None.
Proof.
  by apply (always_invalid_never_returns alwaysInvalid (Some like) None None fuel).
Qed.

(** ** Printing and reading the counter *)

(** [parseInt] reads back what [toString] printed: digit by digit, then
    for the whole text. *)
Lemma digit_value_char (d : N) :
  (d < 10)%N -> Js.digit_value 10 (pretty_N_char d) = Some (Z.of_N d).
Proof.
  intros H.
  assert (d = 0 \/ d = 1 \/ d = 2 \/ d = 3 \/ d = 4 \/ d = 5 \/ d = 6 \/ d = 7
          \/ d = 8 \/ d = 9)%N as Hd by lia.
  by repeat (destruct Hd as [-> | Hd]; [reflexivity |]); subst.
Qed.

Lemma digits_pretty_go (x : N) :
  (0 < x)%N ->
  exists p, forall a s,
    Js.digits 10 (Some a) (pretty_N_go x s) = Js.digits 10 (Some (a * p + Z.of_N x)) s.
Proof.
  induction (N.lt_wf_0 x) as [x _ IH]. intros Hx.
  assert (Hd : (x `mod` 10 < 10)%N) by (apply N.mod_lt; lia).
  destruct (decide (x `div` 10 = 0)%N) as [Hq | Hq].
  - exists 10. intros a s. rewrite pretty_N_go_step by done.
    rewrite Hq, pretty_N_go_0. cbn [Js.digits]. rewrite digit_value_char by done.
    cbn [default from_option id]. f_equal. f_equal.
    pose proof (N.div_mod x 10 ltac:(lia)) as Hx10.
    apply (f_equal Z.of_N) in Hx10. rewrite N2Z.inj_add, N2Z.inj_mul in Hx10.
    rewrite ?Hq in Hx10. lia.
  - destruct (IH (x `div` 10)%N) as [p Hp];
      [apply N.div_lt; lia | by apply N.neq_0_lt_0 |].
    exists (p * 10). intros a s. rewrite pretty_N_go_step by done.
    rewrite Hp. cbn [Js.digits]. rewrite digit_value_char by done.
    cbn [default from_option id]. f_equal. f_equal.
    pose proof (N.div_mod x 10 ltac:(lia)) as Hx10.
    apply (f_equal Z.of_N) in Hx10. rewrite N2Z.inj_add, N2Z.inj_mul in Hx10.
    rewrite ?Hq in Hx10. lia.
Qed.

Lemma pretty_go_head (x : N) (s : string) :
  (0 < x)%N ->
  exists d rest, (1 <= d <= 9)%N /\ pretty_N_go x s = String (pretty_N_char d) rest.
Proof.
  revert s. induction (N.lt_wf_0 x) as [x _ IH]. intros s Hx.
  rewrite pretty_N_go_step by done.
  destruct (decide (x `div` 10 = 0)%N) as [Hq | Hq].
  - rewrite Hq, pretty_N_go_0. exists (x `mod` 10)%N, s. split; [| done].
    pose proof (N.div_mod x 10 ltac:(lia)). pose proof (N.mod_lt x 10 ltac:(lia)). lia.
  - apply IH; [apply N.div_lt; lia | by apply N.neq_0_lt_0].
Qed.

Lemma parseInt_digit_head (d : N) (rest : string) :
  (1 <= d <= 9)%N ->
  let s := String (pretty_N_char d) rest in
  Js.parseInt s
    = match Js.digits 10 None s with Some v => Js.Int (1 * v) | None => Js.NaN end /\
  Js.parseInt (String "-" s)
    = match Js.digits 10 None s with Some v => Js.Int (- 1 * v) | None => Js.NaN end.
Proof.
  intros Hd.
  assert (d = 1 \/ d = 2 \/ d = 3 \/ d = 4 \/ d = 5 \/ d = 6 \/ d = 7
          \/ d = 8 \/ d = 9)%N as Hcase by lia.
  repeat (destruct Hcase as [-> | Hcase]); try subst d; split; reflexivity.
Qed.

Lemma parseInt_pretty_pos (x : N) :
  (0 < x)%N ->
  Js.parseInt (pretty_N_go x "") = Js.Int (Z.of_N x) /\
  Js.parseInt (String "-" (pretty_N_go x "")) = Js.Int (- Z.of_N x).
Proof.
  intros Hx.
  destruct (digits_pretty_go x Hx) as [p Hp].
  destruct (pretty_go_head x "" Hx) as (d & rest & Hd & Hhead).
  assert (Hdigits : Js.digits 10 None (pretty_N_go x "") = Some (Z.of_N x)).
  { transitivity (Js.digits 10 (Some 0) (pretty_N_go x "")).
    - rewrite Hhead. cbn [Js.digits]. by rewrite digit_value_char by lia.
    - by rewrite Hp. }
  rewrite Hhead in Hdigits |- *.
  destruct (parseInt_digit_head d rest Hd) as [-> ->]. rewrite Hdigits.
  split; f_equal; lia.
Qed.

Lemma parseInt_toString (n : Js.number) : Js.parseInt (Js.toString n) = n.
Proof.
  destruct n as [| [| p | p]]; try reflexivity.
  - apply (parseInt_pretty_pos (Npos p)). lia.
  - apply (parseInt_pretty_pos (Npos p)). lia.
Qed.

Lemma toString_nonempty (n : Js.number) : Js.toString n <> "".
Proof.
  intros H. pose proof (parseInt_toString n) as Hback. rewrite H in Hback.
  destruct n; [discriminate H | discriminate Hback].
Qed.

(** What a new client reads after [setCurrentIteration]. *)
Lemma constructor_after_setCurrentIteration (n : Js.number) (baseUrl : string) (w : World) :
  constructor baseUrl (localStorage (setCurrentIteration n w)) =
  {| apiBaseUrl := baseUrl;
     aiId := localStorage w !! "style_ai_id";
     preferenceId := localStorage w !! "style_preference_id";
     currentIteration := n |}.
Proof.
  unfold constructor, setCurrentIteration. cbn [localStorage].
  rewrite lookup_insert_eq, !lookup_insert_ne by discriminate.
  pose proof (toString_nonempty n) as Hne. apply truthy_Some in Hne as ->.
  cbn [Js.template]. by rewrite parseInt_toString.
Qed.

(** X1: the counter survives a reload.  For [NaN] and for every integer a
    [number] holds exactly, [setCurrentIteration(n)] followed by the
    construction of a new client over the same store gives a client whose
    iteration is [n].  (The bound is where [toString] stops printing plain
    digits in the language; the model prints them for every integer.) *)
Theorem setCurrentIteration_round_trip (n : Js.number) (baseUrl : string) (w : World) :
  safeNumber n ->
  getCurrentIteration (constructor baseUrl (localStorage (setCurrentIteration n w))) = n.
Proof.
  intros _. by rewrite constructor_after_setCurrentIteration.
Qed.

Lemma setCurrentIteration_round_trip_witness :
  getCurrentIteration
    (constructor defaultBaseUrl
       (localStorage (setCurrentIteration (Js.Int (-17)) (load defaultBaseUrl ∅))))
  = Js.Int (-17).
Proof.
  apply (setCurrentIteration_round_trip (Js.Int (-17)) defaultBaseUrl (load defaultBaseUrl ∅)).
  simpl. lia.
Defined.

(** ** How the session mutators compose *)

Ltac by_session_key k :=
  destruct (decide (k = "style_current_iteration")) as [-> | ?]; [by simplify_map_eq |];
  destruct (decide (k = "style_preference_id")) as [-> | ?]; [by simplify_map_eq |];
  destruct (decide (k = "style_ai_id")) as [-> | ?]; [by simplify_map_eq |].

Lemma session_keys_deleted (a b i : string) (m : gmap string string) :
  delete "style_current_iteration"
    (delete "style_preference_id"
       (delete "style_ai_id"
          (<["style_current_iteration" := i]>
             (<["style_preference_id" := b]> (<["style_ai_id" := a]> m)))))
  = delete "style_current_iteration"
      (delete "style_preference_id" (delete "style_ai_id" m)).
Proof.
  apply map_eq. intros k. by_session_key k. by simplify_map_eq.
Qed.

Lemma session_keys_written (a b i : string) (m m' : gmap string string) :
  (forall k, k <> "style_ai_id" -> k <> "style_preference_id" ->
             k <> "style_current_iteration" -> m !! k = m' !! k) ->
  <["style_current_iteration" := i]>
    (<["style_preference_id" := b]> (<["style_ai_id" := a]> m))
  = <["style_current_iteration" := i]>
      (<["style_preference_id" := b]> (<["style_ai_id" := a]> m')).
Proof.
  intros Hsame. apply map_eq. intros k. by_session_key k.
  rewrite !lookup_insert_ne by done. by apply Hsame.
Qed.

(** X2: [setSessionData] overwrites whatever session and counter there
    were, and [clearSessionData] erases them: after either, nothing of an
    earlier [setSessionData], [clearSessionData] or [setCurrentIteration]
    is left in the object or in the store. *)
Theorem session_mutators_compose (a b a' b' : string) (n : Js.number) (w : World) :
  clearSessionData (setSessionData a b w) = clearSessionData w /\
  clearSessionData (setCurrentIteration n w) = clearSessionData w /\
  clearSessionData (clearSessionData w) = clearSessionData w /\
  setSessionData a b (setSessionData a' b' w) = setSessionData a b w /\
  setSessionData a b (setCurrentIteration n w) = setSessionData a b w /\
  setSessionData a b (clearSessionData w) = setSessionData a b w.
Proof.
  unfold clearSessionData, setSessionData, setCurrentIteration.
  cbn [this localStorage requests apiBaseUrl].
  split; [| split; [| split; [| split; [| split]]]]; f_equal.
  - apply session_keys_deleted.
  - apply map_eq. intros k. by_session_key k. by simplify_map_eq.
  - apply map_eq. intros k. by_session_key k. by simplify_map_eq.
  - apply session_keys_written. intros k ? ? ?. by rewrite !lookup_insert_ne.
  - apply session_keys_written. intros k ? ? ?. by rewrite !lookup_insert_ne.
  - apply session_keys_written. intros k ? ? ?. by rewrite !lookup_delete_ne.
Qed.

(** ** Opening a session *)

(** X3: when the server answers the creation request with a session,
    [authenticate] returns that answer and installs it over whatever
    session there was: the two ids are the server's, in the object and in
    the store, the counter is 0, and exactly one request was sent.  The
    client is then authenticated exactly when neither id is empty. *)
Theorem authenticate_opens_session (T : Transport) (accessId gender : string)
    (w : World) (data : AuthResponse) :
  post_preference T (requests w) (authRequest (this w) accessId gender)
    = Js.Return (Success (Js.Return data)) ->
  let w' := (authenticate T accessId gender w).2 in
  (authenticate T accessId gender w).1 = Js.Return data /\
  getAiId (this w') = Some (ai_id data) /\
  getPreferenceId (this w') = Some (preference_id data) /\
  getCurrentIteration (this w') = Js.Int 0 /\
  localStorage w' !! "style_ai_id" = Some (ai_id data) /\
  localStorage w' !! "style_preference_id" = Some (preference_id data) /\
  localStorage w' !! "style_current_iteration" = Some "0" /\
  requests w' = (requests w ++ [authRequest (this w) accessId gender])%list /\
  (isAuthenticated (this w') = true <-> ai_id data <> "" /\ preference_id data <> "").
Proof.
  intros Hanswer. unfold authenticate.
  fold (authRequest (this w) accessId gender). rewrite Hanswer.
  cbn [fst snd setSessionData sent this localStorage requests getAiId getPreferenceId
       getCurrentIteration aiId preferenceId currentIteration].
  split; [reflexivity |]. do 3 (split; [reflexivity |]).
  do 3 (split; [by simplify_map_eq |]). split; [reflexivity |].
  unfold isAuthenticated. cbn [aiId preferenceId].
  by rewrite andb_true_iff, !truthy_Some.
Qed.

Lemma authenticate_opens_session_witness :
  let w' := (authenticate welcoming "access-1" "female" (session (Js.Int 12))).2 in
  (authenticate welcoming "access-1" "female" (session (Js.Int 12))).1
    = Js.Return {| preference_id := "pref-2"; ai_id := "ai-2" |} /\
  getAiId (this w') = Some "ai-2" /\
  getPreferenceId (this w') = Some "pref-2" /\
  getCurrentIteration (this w') = Js.Int 0 /\
  localStorage w' !! "style_ai_id" = Some "ai-2" /\
  localStorage w' !! "style_preference_id" = Some "pref-2" /\
  localStorage w' !! "style_current_iteration" = Some "0" /\
  requests w' = [authRequest (this (session (Js.Int 12))) "access-1" "female"] /\
  (isAuthenticated (this w') = true <-> "ai-2" <> "" /\ "pref-2" <> "").
Proof.
  exact (authenticate_opens_session welcoming "access-1" "female" (session (Js.Int 12))
           {| preference_id := "pref-2"; ai_id := "ai-2" |} eq_refl).
Defined.

(** X4: when [authenticate] throws, the session that was there is still
    there: the object and the store are untouched and one request was sent.
    For a failed response with a readable body the error thrown is
    "Authentication failed: <status> - <error text or Unknown error>". *)
Theorem authenticate_failure_keeps_session (T : Transport) (accessId gender : string)
    (w w' : World) (e : Js.thrown) :
  authenticate T accessId gender w = (Js.Throw e, w') ->
  this w' = this w /\
  localStorage w' = localStorage w /\
  requests w' = (requests w ++ [authRequest (this w) accessId gender])%list /\
  (forall status errorData,
     post_preference T (requests w) (authRequest (this w) accessId gender)
       = Js.Return (Failure status (Js.Return errorData)) ->
     e = Js.Error ("Authentication failed: " +:+ pretty status +:+ " - "
                   +:+ Js.or_else (error errorData) "Unknown error")).
Proof.
  unfold authenticate. fold (authRequest (this w) accessId gender).
  destruct (post_preference T (requests w) (authRequest (this w) accessId gender))
    as [[status [errorData | e'] | [data | e']] | e'];
    intros [= <- <-]; (do 3 (split; [reflexivity |])); intros status' errorData' [=].
  by subst.
Qed.

Lemma authenticate_failure_keeps_session_witness :
  let w := session (Js.Int 12) in
  let w' := sent (authRequest (this w) "access-1" "female") w in
  this w' = this w /\
  localStorage w' = localStorage w /\
  requests w' = (requests w ++ [authRequest (this w) "access-1" "female"])%list /\
  (forall status errorData,
     post_preference refusing (requests w) (authRequest (this w) "access-1" "female")
       = Js.Return (Failure status (Js.Return errorData)) ->
     Js.Error "Authentication failed: 403 - Invalid access ID"
     = Js.Error ("Authentication failed: " +:+ pretty status +:+ " - "
                 +:+ Js.or_else (error errorData) "Unknown error")).
Proof.
  exact (authenticate_failure_keeps_session refusing "access-1" "female"
           (session (Js.Int 12))
           (sent (authRequest (this (session (Js.Int 12))) "access-1" "female")
              (session (Js.Int 12)))
           (Js.Error "Authentication failed: 403 - Invalid access ID") eq_refl).
Defined.

(** ** The answers of the iteration endpoint *)



(** The error the client builds for a failed iteration request contains
    the phrase when the server's text does. *)
Lemma failure_message_includes (status : Z) (text : string) :
  Js.includes text "No more images available" = true ->
  Js.includes (failureMessage "Failed to submit feedback" status {| error := Some text |})
    "No more images available" = true.
Proof.
  intros Hin. unfold failureMessage, Js.or_else. cbn [error].
  pose proof (includes_nonempty _ Hin) as Hnonempty.
  apply truthy_Some in Hnonempty as ->. cbn [default from_option id].
  by do 4 apply includes_app_r.
Qed.

(** X6: the status does not matter for the end of the loop.  With a
    session and the counter below 30, every failed response, 400 or not,
    whose error text contains "No more images available" ends the loop: the
    call returns [{image_url: "", iteration: 30, completed: true}] and the
    counter is 30 in the object and in the store. *)
Theorem any_status_with_phrase_completes (T : Transport) (fuel : nat)
    (feedback : option Feedback) (style imageKey : option string) (w : World)
    (status : Z) (text : string) :
  isAuthenticated (this w) = true ->
  Js.ge (currentIteration (this w)) (Js.Int 30) = false ->
  Js.includes text "No more images available" = true ->
  let request := request_of w feedback style imageKey in
  let done := setCurrentIteration (Js.Int 30) (sent request w) in
  post_iteration T (requests w) request
    = Js.Return (Failure status (Js.Return {| error := Some text |})) ->
  submitFeedbackAndGetNextImage (S fuel) T feedback style imageKey w
    = Some (Js.Return {| image_url := ""; iteration := Js.Int 30; completed := true;
                         style := None; image_key := None |}, done) /\
  currentIteration (this done) = Js.Int 30 /\
  localStorage done !! "style_current_iteration" = Some "30".
Proof.
  intros Hauth Hbelow Hin request done Hanswer.
  split; [| apply (setCurrentIteration_persisted (Js.Int 30))].
  enter_submit Hauth Hbelow.
  fold (request_of w feedback style imageKey). fold request. rewrite Hanswer.
  pose proof (failure_message_includes status text Hin) as Hmsg.
  destruct (status =? 400).
  - cbn [error]. destruct (decide (Some text = Some "No more images available"));
      [reflexivity |].
    rewrite decide_False by (intros [= ->]; discriminate Hin).
    by rewrite completedOrRethrow_completed.
  - by rewrite completedOrRethrow_completed.
Qed.

Lemma any_status_with_phrase_completes_witness :
  let w := session (Js.Int 7) in
  let done := setCurrentIteration (Js.Int 30) (sent (request_of w (Some like) None None) w) in
  submitFeedbackAndGetNextImage 1 goneAway (Some like) None None w
    = Some (Js.Return {| image_url := ""; iteration := Js.Int 30; completed := true;
                         style := None; image_key := None |}, done) /\
  currentIteration (this done) = Js.Int 30 /\
  localStorage done !! "style_current_iteration" = Some "30".
Proof.
  exact (any_status_with_phrase_completes goneAway 0 (Some like) None None
           (session (Js.Int 7)) 410 "No more images available"
           eq_refl eq_refl eq_refl eq_refl).
Defined.

(** X7: every other failed response is an error for the caller.  With a
    session and the counter below 30, a failed response that is not the
    400 "Invalid iteration ID" and whose error message does not contain "No
    more images available" makes the call throw "Failed to submit feedback:
    <status> - <error text or Unknown error>"; the counter and the store
    are untouched and one request was sent. *)
Theorem unrecognised_failure_throws (T : Transport) (fuel : nat)
    (feedback : option Feedback) (style imageKey : option string) (w : World)
    (status : Z) (errorData : ErrorData) :
  isAuthenticated (this w) = true ->
  Js.ge (currentIteration (this w)) (Js.Int 30) = false ->
  let request := request_of w feedback style imageKey in
  let msg := "Failed to submit feedback: " +:+ pretty status +:+ " - "
                 +:+ Js.or_else (error errorData) "Unknown error" in
  post_iteration T (requests w) request = Js.Return (Failure status (Js.Return errorData)) ->
  ~ (status = 400 /\ error errorData = Some "Invalid iteration ID") ->
  Js.includes msg "No more images available" = false ->
  submitFeedbackAndGetNextImage (S fuel) T feedback style imageKey w
    = Some (Js.Throw (Js.Error msg), sent request w).
Proof.
  intros Hauth Hbelow request msg Hanswer Hother Hmsg.
  assert (Hcatch : completedOrRethrow (Js.Error msg) (sent request w)
                   = (Js.Throw (Js.Error msg), sent request w)).
  { unfold completedOrRethrow. by rewrite Hmsg. }
  enter_submit Hauth Hbelow.
  fold (request_of w feedback style imageKey). fold request. rewrite Hanswer.
  change (failureMessage "Failed to submit feedback" status errorData) with msg.
  destruct (status =? 400) eqn:Hstatus; [| by rewrite Hcatch].
  apply Z.eqb_eq in Hstatus.
  rewrite decide_False.
  - rewrite decide_False by tauto. by rewrite Hcatch.
  - intros Herror. destruct errorData as [text]. cbn [error] in Herror. subst text.
    pose proof (failure_message_includes status "No more images available" eq_refl) as Hin.
    change (failureMessage _ _ _) with msg in Hin. congruence.
Qed.

Lemma unrecognised_failure_throws_witness :
  let w := session (Js.Int 7) in
  submitFeedbackAndGetNextImage 1 failing (Some like) None None w
    = Some (Js.Throw (Js.Error "Failed to submit feedback: 500 - Internal error"),
            sent (request_of w (Some like) None None) w).
Proof.
  apply (unrecognised_failure_throws failing 0 (Some like) None None (session (Js.Int 7))
           500 {| error := Some "Internal error" |} eq_refl eq_refl eq_refl).
  - intros [H _]. discriminate H.
  - reflexivity.
Defined.

(** X8: one answer is enough unless it is the 400 "Invalid iteration ID".
    With a session and the counter below 30, when the answer to the request
    is anything else, the call returns or throws after exactly one request,
    and no retry is made. *)
Theorem other_answers_end_the_call (T : Transport) (fuel : nat)
    (feedback : option Feedback) (style imageKey : option string) (w : World) :
  isAuthenticated (this w) = true ->
  Js.ge (currentIteration (this w)) (Js.Int 30) = false ->
  let request := request_of w feedback style imageKey in
  post_iteration T (requests w) request
    <> Js.Return (Failure 400 (Js.Return {| error := Some "Invalid iteration ID" |})) ->
  exists r w',
    submitFeedbackAndGetNextImage (S fuel) T feedback style imageKey w = Some (r, w') /\
    requests w' = (requests w ++ [request])%list.
Proof.
  intros Hauth Hbelow request Hother.
  destruct (one_answer_suffices T feedback style imageKey w Hauth Hbelow Hother)
    as (r & w' & Hrun & Hsent).
  exists r, w'. split; [apply Hrun | exact Hsent].
Qed.

Lemma other_answers_end_the_call_witness :
  let w := session (Js.Int 7) in
  exists r w',
    submitFeedbackAndGetNextImage 4 failing (Some like) None None w = Some (r, w') /\
    requests w' = (requests w ++ [request_of w (Some like) None None])%list.
Proof.
  apply (other_answers_end_the_call failing 3 (Some like) None None (session (Js.Int 7)));
    [reflexivity | reflexivity | discriminate].
Defined.

(** ** What a call of the loop leaves behind *)

(** An invariant rule for the loop: a property of the world that survives
    the sending of a request and the three kinds of write to the counter
    (0, 30, an iteration the server sent) survives the call. *)
Lemma submit_invariant (I : World -> Prop) (T : Transport) (sound : Js.number -> Prop) :
  (forall history request data,
     post_iteration T history request = Js.Return (Success (Js.Return data)) ->
     sound (iteration data)) ->
  (forall w r, I w -> I (sent r w)) ->
  (forall w n, n = Js.Int 0 \/ n = Js.Int 30 \/ sound n -> I w ->
               I (setCurrentIteration n w)) ->
  forall fuel feedback style imageKey w r w',
    submitFeedbackAndGetNextImage fuel T feedback style imageKey w = Some (r, w') ->
    I w -> I w'.
Proof.
  intros HT Hsent Hset fuel feedback style imageKey.
  induction fuel as [| fuel IH]; intros w r w' Hrun Hw; [discriminate |].
  cbn [submitFeedbackAndGetNextImage] in Hrun.
  repeat match type of Hrun with
         | (if ?b then _ else _) = _ => destruct b
         | Some _ = Some _ => injection Hrun as <- <-
         end; try exact Hw.
  set (request := iterationRequest _ _ _ _ _) in Hrun.
  assert (Hcatch : forall e, I (completedOrRethrow e (sent request w)).2).
  { intros e. destruct (completedOrRethrow_cases e (sent request w)) as [-> | ->];
      cbn [snd]; auto. }
  destruct (post_iteration T (requests w) request)
    as [[status [errorData | e] | [data | e]] | e] eqn:Hanswer;
    repeat match type of Hrun with
           | (if ?b then _ else _) = _ => destruct b
           | Some (completedOrRethrow ?e ?w) = Some _ =>
               specialize (Hcatch e); destruct (completedOrRethrow e w);
               injection Hrun as <- <-; exact Hcatch
           | Some _ = Some _ => injection Hrun as <- <-
           end.
  - auto.
  - apply (IH _ _ _ Hrun). auto.
  - eauto 6.
Qed.

(** X9: what a call returns agrees with what it leaves behind.  When the
    counter before the call is [NaN] or an integer a [number] holds
    exactly, whenever [submitFeedbackAndGetNextImage] returns a result the
    counter of the object is the [iteration] of that result, and
    [completed] is true exactly when that iteration is at least 30.  (With
    a counter strictly between 29 and 30 the second bound check of the
    source answers 30 and leaves the counter; such counters are not
    numbers of this model.) *)
Theorem returned_iteration_is_the_counter (T : Transport) (fuel : nat)
    (feedback : option Feedback) (style imageKey : option string)
    (w w' : World) (data : IterationResponse) :
  safeNumber (currentIteration (this w)) ->
  submitFeedbackAndGetNextImage fuel T feedback style imageKey w
    = Some (Js.Return data, w') ->
  currentIteration (this w') = iteration data /\
  completed data = Js.ge (iteration data) (Js.Int 30).
Proof.
  intros _. revert w. induction fuel as [| fuel IH]; intros w Hrun; [discriminate |].
  cbn [submitFeedbackAndGetNextImage] in Hrun.
  destruct (negb _ || negb _); [discriminate |].
  destruct (Js.ge (currentIteration (this w)) (Js.Int 30)) eqn:Hge.
  { injection Hrun as <- <-. cbn [terminal iteration completed]. by rewrite Hge. }
  rewrite (next_within_limit _ Hge) in Hrun.
  set (request := iterationRequest _ _ _ _ _) in Hrun.
  assert (Hcatch : forall e,
            Some (completedOrRethrow e (sent request w)) = Some (Js.Return data, w') ->
            currentIteration (this w') = iteration data /\
            completed data = Js.ge (iteration data) (Js.Int 30)).
  { intros e [= He].
    destruct (completedOrRethrow_cases e (sent request w)) as [H | H];
      rewrite H in He; [by injection He as <- <- | discriminate]. }
  destruct (post_iteration T (requests w) request)
    as [[status [errorData | e] | [data' | e]] | e];
    repeat match type of Hrun with
           | (if ?b then _ else _) = _ => destruct b
           | Some (completedOrRethrow _ _) = Some _ => exact (Hcatch _ Hrun)
           | Some _ = Some _ => injection Hrun as <- <-; by split
           end.
  exact (IH _ Hrun).
Qed.

Lemma returned_iteration_is_the_counter_witness :
  currentIteration (this (afterTwoRetries (Some like) (session (Js.Int 7)))) = Js.Int 1 /\
  false = Js.ge (Js.Int 1) (Js.Int 30).
Proof.
  exact (returned_iteration_is_the_counter invalidTwice 3 (Some like) None None
           (session (Js.Int 7)) (afterTwoRetries (Some like) (session (Js.Int 7)))
           {| image_url := "https://img.example/1.jpg"; iteration := Js.Int 1;
              completed := false; style := None; image_key := None |}
           ltac:(simpl; lia) eq_refl).
Defined.

(** X10: the loop never touches the session.  Whatever the transport
    does and however the call ends, [submitFeedbackAndGetNextImage] leaves
    the base URL and the two ids of the object as they were, and the two
    ids in the store as well; a client that was authenticated still is. *)
Theorem submit_keeps_session (T : Transport) (fuel : nat)
    (feedback : option Feedback) (style imageKey : option string)
    (w w' : World) (r : Js.completion IterationResponse) :
  submitFeedbackAndGetNextImage fuel T feedback style imageKey w = Some (r, w') ->
  apiBaseUrl (this w') = apiBaseUrl (this w) /\
  aiId (this w') = aiId (this w) /\
  preferenceId (this w') = preferenceId (this w) /\
  localStorage w' !! "style_ai_id" = localStorage w !! "style_ai_id" /\
  localStorage w' !! "style_preference_id" = localStorage w !! "style_preference_id" /\
  isAuthenticated (this w') = isAuthenticated (this w).
Proof.
  intros Hrun.
  apply (submit_invariant
           (fun v => apiBaseUrl (this v) = apiBaseUrl (this w) /\
                     aiId (this v) = aiId (this w) /\
                     preferenceId (this v) = preferenceId (this w) /\
                     localStorage v !! "style_ai_id" = localStorage w !! "style_ai_id" /\
                     localStorage v !! "style_preference_id"
                       = localStorage w !! "style_preference_id" /\
                     isAuthenticated (this v) = isAuthenticated (this w))
           T (fun _ => True) ltac:(done) ltac:(done)) in Hrun; [done | | done].
  intros v n _ (? & ? & ? & ? & ? & ?). unfold isAuthenticated in *.
  cbn [setCurrentIteration this localStorage apiBaseUrl aiId preferenceId].
  by rewrite !lookup_insert_ne.
Qed.

Lemma submit_keeps_session_witness :
  let w := session (Js.Int 7) in
  let w' := afterTwoRetries (Some like) w in
  apiBaseUrl (this w') = apiBaseUrl (this w) /\
  aiId (this w') = aiId (this w) /\
  preferenceId (this w') = preferenceId (this w) /\
  localStorage w' !! "style_ai_id" = localStorage w !! "style_ai_id" /\
  localStorage w' !! "style_preference_id" = localStorage w !! "style_preference_id" /\
  isAuthenticated (this w') = isAuthenticated (this w).
Proof.
  exact (submit_keeps_session invalidTwice 3 (Some like) None None
           (session (Js.Int 7)) (afterTwoRetries (Some like) (session (Js.Int 7)))
           (Js.Return {| image_url := "https://img.example/1.jpg"; iteration := Js.Int 1;
                         completed := false; style := None; image_key := None |})
           eq_refl).
Defined.

(** ** The store mirrors the object *)

Lemma synced_sent (r : Request) (w : World) : synced w -> synced (sent r w).
Proof. exact id. Qed.

Lemma synced_setCurrentIteration (n : Js.number) (w : World) :
  synced w -> synced (setCurrentIteration n w).
Proof.
  unfold synced. intros Hw. rewrite constructor_after_setCurrentIteration.
  cbn [setCurrentIteration this apiBaseUrl]. rewrite <- Hw at 3 4. reflexivity.
Qed.

Lemma synced_setSessionData (a p : string) (w : World) : synced (setSessionData a p w).
Proof. unfold synced. by rewrite constructor_after_setSessionData. Qed.

Lemma synced_clearSessionData (w : World) : synced (clearSessionData w).
Proof.
  unfold synced, constructor, clearSessionData. cbn [this localStorage apiBaseUrl].
  by simplify_map_eq.
Qed.

(** X11: the store never lags behind the object.  A client that a reload
    would reconstruct as it is stays so after every call of every method,
    for every transport, provided the iterations that come from outside
    (the argument of [setCurrentIteration], the iteration of a successful
    answer) are [NaN] or integers a [number] holds exactly. *)
Theorem step_preserves_synced (T : Transport) (w w' : World) (c : Call) :
  servesSafe T ->
  passesSafe c ->
  step T w c w' ->
  synced w ->
  synced w'.
Proof.
  intros HT Hc Hstep Hw. destruct Hstep.
  - apply synced_setSessionData.
  - apply synced_clearSessionData.
  - by apply synced_setCurrentIteration.
  - unfold authenticate.
    destruct (post_preference T _ _) as [[status [? | ?] | [? | ?]] | ?]; cbn [snd];
      try exact Hw. apply synced_setSessionData.
  - eapply (submit_invariant synced T safeNumber HT (fun v r => synced_sent r v));
      [| eassumption | exact Hw].
    intros v n _. apply synced_setCurrentIteration.
  - unfold saveProfile. destruct (_ || _); [exact Hw |].
    destruct (post_profile T _ _) as [[status [? | ?] | [? | ?]] | ?]; exact Hw.
  - unfold getProfile. destruct (_ || _); [exact Hw |].
    destruct (get_profile T _ _) as [[status [? | ?] | [? | ?]] | ?];
      try destruct (status =? 400); exact Hw.
  - unfold checkApiHealth.
    destruct (get_root T _ _) as [[status ? | [? | ?]] | ?]; exact Hw.
Qed.

Lemma step_preserves_synced_witness :
  synced (afterTwoRetries (Some like) (session (Js.Int 7))).
Proof.
  apply (step_preserves_synced invalidTwice (session (Js.Int 7))
           (afterTwoRetries (Some like) (session (Js.Int 7)))
           (call_submitFeedbackAndGetNextImage (Some like) None None)).
  - intros history request data. simpl.
    destruct (length history <? 2)%nat; [discriminate |].
    intros [= <-]. simpl. lia.
  - exact I.
  - exact invalidTwice_step.
  - reflexivity.
Defined.

(** ** The profile and health calls *)

(** X12: [saveProfile], [getProfile] and [checkApiHealth] only talk to
    the server: they never change the object or the store.  The first two
    send one request when there is a session and none otherwise;
    [checkApiHealth] has no guard and always sends its request to the base
    URL, session or not. *)
Theorem profile_and_health_calls_keep_state (T : Transport) (w : World) :
  let saved := (saveProfile T w).2 in
  let fetched := (getProfile T w).2 in
  let checked := (checkApiHealth T w).2 in
  (this saved = this w /\ localStorage saved = localStorage w /\
   requests saved
     = (requests w ++
        if isAuthenticated (this w)
        then [profileRequest (this w) "POST" [("Content-Type", "application/json")]]
        else [])%list) /\
  (this fetched = this w /\ localStorage fetched = localStorage w /\
   requests fetched
     = (requests w ++
        if isAuthenticated (this w) then [profileRequest (this w) "GET" []] else [])%list) /\
  (this checked = this w /\ localStorage checked = localStorage w /\
   requests checked
     = (requests w ++ [{| url := apiBaseUrl (this w); method := "GET";
                          headers := []; body := None |}])%list).
Proof.
  unfold saveProfile, getProfile, checkApiHealth, isAuthenticated.
  split; [| split].
  - destruct (Js.truthy (aiId (this w))), (Js.truthy (preferenceId (this w)));
      cbn [negb orb andb snd]; rewrite ?app_nil_r; try done.
    by destruct (post_profile T _ _) as [[status [? | ?] | [? | ?]] | ?].
  - destruct (Js.truthy (aiId (this w))), (Js.truthy (preferenceId (this w)));
      cbn [negb orb andb snd]; rewrite ?app_nil_r; try done.
    destruct (get_profile T _ _) as [[status [? | ?] | [? | ?]] | ?];
      try destruct (status =? 400); done.
  - by destruct (get_root T _ _) as [[status ? | [? | ?]] | ?].
Qed.

(** ** The request of the loop *)

(** X13: what the loop asks for.  For a client with ids [ai] and [pref]
    at an iteration [n] that is an integer a [number] holds exactly, the
    request is a POST to [<base>/preference/<pref>/iteration/<n+1>] with
    [ai] in the "AI-ID" header; its body carries the feedback, "dislike"
    when none is given, and carries [style] and [image_key] only when [n]
    is 29 and both are non-empty.  When the client is authenticated and
    [n < 30], this request is sent: unless it is answered with the 400
    "Invalid iteration ID", the call ends with exactly this request added
    to the history. *)
Theorem iteration_request_shape (T : Transport) (fuel : nat)
    (feedback : option Feedback) (style imageKey : option string)
    (w : World) (ai pref : string) (n : Z) :
  aiId (this w) = Some ai ->
  preferenceId (this w) = Some pref ->
  currentIteration (this w) = Js.Int n ->
  - 2 ^ 53 < n < 2 ^ 53 ->
  let request :=
    {| url := apiBaseUrl (this w) +:+ "/preference/" +:+ pref +:+ "/iteration/"
                +:+ pretty (n + 1);
       method := "POST";
       headers := [("Content-Type", "application/json"); ("AI-ID", ai)];
       body := Some
         (("feedback", match feedback with Some like => "like" | _ => "dislike" end) ::
          (if (n =? 29) && Js.truthy style && Js.truthy imageKey
           then [("style", Js.template style); ("image_key", Js.template imageKey)]
           else [])) |} in
  request_of w feedback style imageKey = request /\
  (isAuthenticated (this w) = true -> n < 30 ->
   post_iteration T (requests w) request
     <> Js.Return (Failure 400 (Js.Return {| error := Some "Invalid iteration ID" |})) ->
   exists r w',
     submitFeedbackAndGetNextImage (S fuel) T feedback style imageKey w = Some (r, w') /\
     requests w' = (requests w ++ [request])%list).
Proof.
  intros Hai Hpref Hn _ request.
  assert (Hrequest : request_of w feedback style imageKey = request).
  { unfold request_of, iterationRequest, request. rewrite Hai, Hpref, Hn.
    assert (nextIterationOf (Js.Int n) = Js.Int (n + 1)) as ->.
    { unfold nextIterationOf. simpl. destruct (Z.eqb_spec n 0) as [-> | ?]; reflexivity. }
    cbn [Js.template Js.toString Js.strict_eq].
    assert ((n + 1 =? 30) = (n =? 29)) as ->.
    { destruct (Z.eqb_spec n 29), (Z.eqb_spec (n + 1) 30); (reflexivity || lia). }
    by destruct feedback as [[] |]. }
  split; [exact Hrequest |].
  intros Hauth Hlt Hother. rewrite <- Hrequest in Hother |- *.
  destruct (one_answer_suffices T feedback style imageKey w Hauth) as (r & w' & Hrun & Hsent).
  - rewrite Hn. simpl. apply Z.leb_gt. lia.
  - exact Hother.
  - exists r, w'. split; [apply Hrun | exact Hsent].
Qed.

Lemma iteration_request_shape_witness :
  let w := session (Js.Int 29) in
  let request :=
    {| url := "https://haider.techrealm.online/api/preference/pref-1/iteration/30";
       method := "POST";
       headers := [("Content-Type", "application/json"); ("AI-ID", "ai-1")];
       body := Some [("feedback", "dislike"); ("style", "boho"); ("image_key", "img-9")] |} in
  request_of w None (Some "boho") (Some "img-9") = request /\
  exists r w',
    submitFeedbackAndGetNextImage 1 offline None (Some "boho") (Some "img-9") w
      = Some (r, w') /\
    requests w' = (requests w ++ [request])%list.
Proof.
  intros w request.
  destruct (iteration_request_shape offline 0 None (Some "boho") (Some "img-9")
              (session (Js.Int 29)) "ai-1" "pref-1" 29 eq_refl eq_refl eq_refl
              ltac:(lia)) as [Hshape Hsent].
  split; [exact Hshape |].
  apply Hsent; [reflexivity | lia | discriminate].
Defined.



(** ** The whole loop *)

(** The loop against a server that numbers its answers, from any point
    where the counter is the number of requests sent so far. *)
Lemma submitAll_counts (T : Transport) (feedbacks : list Feedback) :
  answersInOrder T ->
  forall w,
    isAuthenticated (this w) = true ->
    currentIteration (this w) = Js.Int (Z.of_nat (length (requests w))) ->
    (length (requests w) <= 30)%nat ->
    exists w',
      submitAll T feedbacks w = Some w' /\
      length (requests w') = Nat.min (length (requests w) + length feedbacks) 30 /\
      currentIteration (this w') = Js.Int (Z.of_nat (length (requests w'))).
Proof.
  intros HT. induction feedbacks as [| f feedbacks IH]; intros w Hauth Hcount Hmax.
  { exists w. cbn [submitAll length]. split; [reflexivity |]. split; [lia | exact Hcount]. }
  cbn [submitAll length].
  destruct (decide (length (requests w) = 30%nat)) as [Hfull | Hroom].
  - assert (Hstop : submitFeedbackAndGetNextImage 1 T (Some f) None None w
                    = Some (Js.Return (terminal (currentIteration (this w))), w)).
    { cbn [submitFeedbackAndGetNextImage].
      rewrite (guard_authenticated _ Hauth), Hcount, Hfull. reflexivity. }
    rewrite Hstop. destruct (IH w Hauth Hcount Hmax) as (w' & Hrun & Hlen & Hcur).
    exists w'. split; [exact Hrun |]. split; [lia | exact Hcur].
  - assert (Hbelow : Js.ge (currentIteration (this w)) (Js.Int 30) = false).
    { rewrite Hcount. simpl. apply Z.leb_gt. lia. }
    enter_submit Hauth Hbelow.
    destruct (HT (requests w)
                (iterationRequest (this w) (nextIterationOf (currentIteration (this w)))
                   (Some f) None None)) as (data & -> & Hiteration).
    set (w1 := setCurrentIteration (iteration data) (sent _ w)).
    assert (Hlen1 : length (requests w1) = S (length (requests w))).
    { subst w1. cbn [setCurrentIteration sent requests]. rewrite length_app. simpl. lia. }
    destruct (IH w1) as (w' & Hrun & Hlen & Hcur).
    + exact Hauth.
    + rewrite Hlen1. subst w1. cbn [setCurrentIteration this currentIteration].
      rewrite Hiteration. f_equal. lia.
    + lia.
    + exists w'. split; [exact Hrun |]. split; [lia | exact Hcur].
Qed.

(** X15: the loop sends thirty requests and not one more.  Against a
    server that answers its k-th request with iteration k, a new session
    that submits any list of feedbacks one after the other ends with
    min(number of feedbacks, 30) requests sent and the counter at that
    number: every call after the thirtieth is answered without a
    request. *)
Theorem loop_stops_after_thirty (T : Transport) (feedbacks : list Feedback) (w : World) :
  answersInOrder T ->
  isAuthenticated (this w) = true ->
  currentIteration (this w) = Js.Int 0 ->
  requests w = [] ->
  exists w',
    submitAll T feedbacks w = Some w' /\
    length (requests w') = Nat.min (length feedbacks) 30 /\
    currentIteration (this w') = Js.Int (Z.of_nat (Nat.min (length feedbacks) 30)).
Proof.
  intros HT Hauth Hzero Hnone.
  destruct (submitAll_counts T feedbacks HT w Hauth) as (w' & Hrun & Hlen & Hcur).
  - by rewrite Hnone.
  - rewrite Hnone. simpl. lia.
  - rewrite Hnone in Hlen. simpl in Hlen.
    exists w'. split; [exact Hrun |]. split; [exact Hlen |]. by rewrite <- Hlen.
Qed.

Lemma inOrder_answersInOrder : answersInOrder inOrder.
Proof. intros history request. eexists. split; reflexivity. Qed.

Lemma loop_stops_after_thirty_witness :
  exists w',
    submitAll inOrder (repeat like 32) (session (Js.Int 0)) = Some w' /\
    length (requests w') = Nat.min (length (repeat like 32)) 30 /\
    currentIteration (this w')
      = Js.Int (Z.of_nat (Nat.min (length (repeat like 32)) 30)).
Proof.
  exact (loop_stops_after_thirty inOrder (repeat like 32) (session (Js.Int 0))
           inOrder_answersInOrder eq_refl eq_refl eq_refl).
Defined.

(** ** A store that cannot be read *)

Lemma unreadable_parseInt (text : string) :
  unreadable text = true -> text <> "" /\ Js.parseInt text = Js.NaN.
Proof.
  destruct text as [| c rest]; [discriminate |].
  intros H. split; [discriminate |].
  destruct c as [[] [] [] [] [] [] [] []]; try discriminate H; reflexivity.
Qed.

(** X16: a stored iteration that is not a number is not repaired.  Over a
    store with two non-empty ids and an iteration text that starts with an
    ASCII character which is neither white space, nor a sign, nor a digit,
    the new client is authenticated with the counter [NaN]; neither bound
    check stops it, and its request goes to
    [<base>/preference/<pref>/iteration/NaN]: unless that request is
    answered with the 400 "Invalid iteration ID", the call ends with
    exactly this request sent. *)
Theorem unreadable_iteration_is_requested (T : Transport) (fuel : nat)
    (feedback : option Feedback) (style imageKey : option string)
    (baseUrl ai pref text : string) (store : gmap string string) :
  store !! "style_ai_id" = Some ai ->
  store !! "style_preference_id" = Some pref ->
  store !! "style_current_iteration" = Some text ->
  ai <> "" -> pref <> "" ->
  unreadable text = true ->
  let w := load baseUrl store in
  let request := request_of w feedback style imageKey in
  isAuthenticated (this w) = true /\
  getCurrentIteration (this w) = Js.NaN /\
  url request = baseUrl +:+ "/preference/" +:+ pref +:+ "/iteration/NaN" /\
  (post_iteration T [] request
     <> Js.Return (Failure 400 (Js.Return {| error := Some "Invalid iteration ID" |})) ->
   exists r w',
     submitFeedbackAndGetNextImage (S fuel) T feedback style imageKey w = Some (r, w') /\
     requests w' = [request]).
Proof.
  intros Hai Hpref Htext Hai' Hpref' [Htext' Hnan]%unreadable_parseInt w request.
  assert (Hthis : this w = {| apiBaseUrl := baseUrl; aiId := Some ai;
                              preferenceId := Some pref; currentIteration := Js.NaN |}).
  { subst w. unfold load, constructor. cbn [this]. rewrite Hai, Hpref, Htext.
    apply truthy_Some in Htext' as ->. cbn [Js.template]. by rewrite Hnan. }
  assert (Hauth : isAuthenticated (this w) = true).
  { rewrite Hthis. unfold isAuthenticated. cbn [aiId preferenceId].
    apply truthy_Some in Hai' as ->. by apply truthy_Some in Hpref' as ->. }
  split; [exact Hauth |]. split; [by rewrite Hthis |].
  split; [unfold request, request_of; by rewrite Hthis |].
  intros Hother.
  destruct (one_answer_suffices T feedback style imageKey w Hauth) as (r & w' & Hrun & Hsent).
  - by rewrite Hthis.
  - exact Hother.
  - exists r, w'. split; [apply Hrun | exact Hsent].
Qed.

Lemma unreadable_iteration_is_requested_witness :
  let store : gmap string string :=
    {[ "style_ai_id" := "ai-1"; "style_preference_id" := "pref-1";
       "style_current_iteration" := "next" ]} in
  let w := load defaultBaseUrl store in
  let request := request_of w None None None in
  isAuthenticated (this w) = true /\
  getCurrentIteration (this w) = Js.NaN /\
  url request = "https://haider.techrealm.online/api/preference/pref-1/iteration/NaN" /\
  exists r w',
    submitFeedbackAndGetNextImage 1 offline None None None w = Some (r, w') /\
    requests w' = [request].
Proof.
  intros store w request.
  destruct (unreadable_iteration_is_requested offline 0 None None None defaultBaseUrl
              "ai-1" "pref-1" "next" store eq_refl eq_refl eq_refl
              ltac:(discriminate) ltac:(discriminate) eq_refl)
    as (H1 & H2 & H3 & H4).
  split; [exact H1 |]. split; [exact H2 |]. split; [exact H3 |].
  apply H4. discriminate.
Defined.
